(** * ia-juridica-api: a shallow embedding of [main.py]

    The service keeps two process-wide dictionaries, [DB_CASES] and
    [DB_DOCS], and exposes six handlers that all start with [check_auth].
    Handlers are embedded as functions in a state-and-exception monad over
    the pair of dictionaries; Python exceptions are values of [exn].

    Conventions.
    - A Python [str] is a Rocq [string].  The [Authorization] header reaches
      a handler decoded as latin-1, so one character is one byte there;
      string literals of the source hold the bytes of the source file.
    - A Python [int] is a [Z]; [len] is a [nat].
    - A [dict] is a [gmap string _]; the request bodies typed [dict] are
      JSON objects, so their values are [json].
    - The models are those of pydantic 2 (the [pattern=] keyword of [Field]):
      a [str] field takes a string only, an [Optional] field also takes
      [None], unknown keys are ignored, a default is not validated, and a
      pattern [^(a|b)$] accepts exactly the listed alternatives. *)

From Stdlib Require Import ZArith String Ascii List Lia.
From Stdlib Require Import SpecFloat.
From stdpp Require Import gmap strings list fin_maps pretty.

Set Warnings "-register-all".
Local Open Scope Z_scope.

(** ** Python strings *)

Module Py.

(** [str.isspace] on the code points below 256. *)
Definition isspace (c : ascii) : bool :=
  let n := N_of_ascii c in
  ((9 <=? n) && (n <=? 13) || (28 <=? n) && (n <=? 32)
   || (n =? 133) || (n =? 160))%N.

Fixpoint lstrip (s : string) : string :=
  match s with
  | EmptyString => EmptyString
  | String c r => if isspace c then lstrip r else s
  end.

Fixpoint rstrip (s : string) : string :=
  match s with
  | EmptyString => EmptyString
  | String c r =>
      match rstrip r with
      | EmptyString => if isspace c then EmptyString else String c EmptyString
      | r' => String c r'
      end
  end.

(** [s.strip()] *)
Definition strip (s : string) : string := rstrip (lstrip s).

(** [s.startswith(p)] *)
Definition startswith (s p : string) : bool := String.prefix p s.

(** The text before and after the first occurrence of the character [sep]. *)
Fixpoint partition (sep : ascii) (s : string) : option (string * string) :=
  match s with
  | EmptyString => None
  | String c r =>
      if Ascii.eqb c sep then Some (EmptyString, r)
      else match partition sep r with
           | Some (a, b) => Some (String c a, b)
           | None => None
           end
  end.

(** [s.split(sep, 1)] for a one-character separator. *)
Definition split1 (sep : ascii) (s : string) : list string :=
  match partition sep s with
  | Some (a, b) => [a; b]
  | None => [s]
  end.

(** [l[:stop]]: a negative bound counts from the end, [None] is no bound. *)
Definition slice_to {A} (l : list A) (stop : option Z) : list A :=
  match stop with
  | None => l
  | Some k =>
      let n := Z.of_nat (length l) in
      let k' := if k <? 0 then Z.max (k + n) 0 else Z.min k n in
      take (Z.to_nat k') l
  end.

(** [str(n)] for a length. *)
Definition str_of_len (n : nat) : string := pretty n.

(** The line feed written [\n] in the literals of the source. *)
Definition LF : string := String (ascii_of_nat 10) EmptyString.

End Py.

(** ** JSON values, as [json.loads] delivers them *)

Inductive json :=
  | JNull
  | JBool (b : bool)
  | JInt (z : Z)
  | JFloat (f : spec_float)
  | JStr (s : string)
  | JArr (l : list json)
  | JObj (m : gmap string json).

(** Python truth value, as tested by [not v]. *)
Definition truthy (v : json) : bool :=
  match v with
  | JNull => false
  | JBool b => b
  | JInt z => negb (z =? 0)
  | JFloat (S754_zero _) => false
  | JFloat _ => true
  | JStr s => negb (String.eqb s "")
  | JArr l => negb (Nat.eqb (length l) 0)
  | JObj m => negb (Nat.eqb (size m) 0)
  end.

(** [d.get(k)]: [None] when the key is absent. *)
Definition dict_get (d : gmap string json) (k : string) : json :=
  default JNull (d !! k).

(** [d.get(k, dflt)] *)
Definition dict_get_default (d : gmap string json) (k : string) (dflt : json) : json :=
  default dflt (d !! k).

(** ** Exceptions and results *)

Inductive exn :=
  | HTTPException (status_code : Z) (detail : string)
  | ValidationError
  | TypeError
  | AttributeError
  | KeyError
  | IndexError.

Inductive result (A : Type) :=
  | Ok (a : A)
  | Raise (e : exn).
Arguments Ok {A} a.
Arguments Raise {A} e.

Definition rbind {A B} (r : result A) (k : A → result B) : result B :=
  match r with
  | Ok a => k a
  | Raise e => Raise e
  end.

(** A list comprehension whose body may raise: left to right, the first
    exception ends it. *)
Fixpoint comprehension {A B} (f : A → result B) (l : list A) : result (list B) :=
  match l with
  | [] => Ok []
  | x :: l' =>
      rbind (f x) (λ y, rbind (comprehension f l') (λ ys, Ok (y :: ys)))
  end.

(** The elements a [for] loop sees in a JSON value: the items of an array,
    the characters of a string, the keys of an object. *)
Definition iterate (v : json) : result (list json) :=
  match v with
  | JArr l => Ok l
  | JStr s => Ok ((λ c, JStr (String c EmptyString)) <$> list_ascii_of_string s)
  | JObj m => Ok ((λ kv, JStr kv.1) <$> map_to_list m)
  | _ => Raise TypeError
  end.

(** The status code an exception carries, if it is an [HTTPException]. *)
Definition status_of (e : exn) : option Z :=
  match e with
  | HTTPException c _ => Some c
  | _ => None
  end.

(** ** The models (pydantic classes) *)

Record Case := {
  Case_id : string;
  Case_title : string;
  Case_matter : option string;
  Case_notes : option string
}.

Record DocumentInput := {
  Doc_type : string;
  Doc_filename : option string;
  Doc_content : string;
  Doc_encoding : option string
}.

Record AnalysisRequest := {
  AReq_format : option string;
  AReq_includeCitations : option bool;
  AReq_sections : option (list string)
}.

Record StrategyRequest := {
  SReq_goal : option string;
  SReq_deadline : option string;
  SReq_constraints : option string
}.

Record NormaPesquisaRequest := {
  NReq_query : string;
  NReq_sources : option (list string);
  NReq_limit : option Z
}.

Record Citation := {
  Cit_source : string;
  Cit_identifier : string;
  Cit_excerpt : option string;
  Cit_url : option string
}.

Record AnalysisResponse := {
  ARes_caseId : string;
  ARes_format : string;
  ARes_output : string;
  ARes_citations : option (list Citation)
}.

Record StrategyResponse := {
  SRes_caseId : string;
  SRes_roadmap : string;
  SRes_risks : list string;
  SRes_chances : option string
}.

Record SearchResponse := {
  Search_items : list Citation
}.

(** The body [{"message": ...}] that [add_documents] returns. *)
Record MessageBody := {
  message : string
}.

(** The alternatives of the pattern on [DocumentInput.type]. *)
Definition type_alternatives : list string :=
  ["peticao_inicial"; "contestacao"; "sentenca"; "ed"; "ro"; "acordao"; "rr";
   "airr"; "ai"; "edtst"; "rext"; "ap"; "outro"].

(** The alternatives of the pattern on [DocumentInput.encoding]. *)
Definition encoding_alternatives : list string := ["plain"; "base64"].

(** A string matches [^(a1|...|an)$]. *)
Definition matches (alts : list string) (s : string) : bool :=
  existsb (String.eqb s) alts.
Arguments matches : simpl never.

(** Validation of a required [str] argument. *)
Definition str_field (v : option json) : result string :=
  match v with
  | Some (JStr s) => Ok s
  | _ => Raise ValidationError
  end.

(** Validation of a required [str] argument with a pattern. *)
Definition str_pattern_field (alts : list string) (v : option json) : result string :=
  match v with
  | Some (JStr s) => if matches alts s then Ok s else Raise ValidationError
  | _ => Raise ValidationError
  end.

(** Validation of an [Optional[str]] argument with a default. *)
Definition opt_str_field (dflt : option string) (v : option json) : result (option string) :=
  match v with
  | None => Ok dflt
  | Some JNull => Ok None
  | Some (JStr s) => Ok (Some s)
  | Some _ => Raise ValidationError
  end.

(** Validation of an [Optional[str]] argument with a default and a pattern. *)
Definition opt_str_pattern_field (alts : list string) (dflt : option string)
    (v : option json) : result (option string) :=
  match v with
  | None => Ok dflt
  | Some JNull => Ok None
  | Some (JStr s) => if matches alts s then Ok (Some s) else Raise ValidationError
  | Some _ => Raise ValidationError
  end.

(** [Case(id=case_id, title=title, notes=notes)] with [title] and [notes]
    values read from the payload. *)
Definition Case_new (case_id : string) (title notes : json) : result Case :=
  rbind (str_field (Some title)) (λ t,
  rbind (opt_str_field None (Some notes)) (λ n,
  Ok {| Case_id := case_id; Case_title := t;
        Case_matter := Some "Direito do Trabalho"; Case_notes := n |})).

(** [DocumentInput] called with the entries of [kw] as keyword arguments. *)
Definition DocumentInput_kwargs (kw : gmap string json) : result DocumentInput :=
  rbind (str_pattern_field type_alternatives (kw !! "type")) (λ t,
  rbind (opt_str_field None (kw !! "filename")) (λ f,
  rbind (str_field (kw !! "content")) (λ c,
  rbind (opt_str_pattern_field encoding_alternatives (Some "plain") (kw !! "encoding")) (λ e,
  Ok {| Doc_type := t; Doc_filename := f; Doc_content := c; Doc_encoding := e |})))).

(** [DocumentInput] called with [d] unpacked: [d] has to be a mapping. *)
Definition DocumentInput_new (d : json) : result DocumentInput :=
  match d with
  | JObj kw => DocumentInput_kwargs kw
  | _ => Raise TypeError
  end.

(** [AnalysisResponse(caseId=.., format=.., output=.., citations=..)]: the
    field [format] is a required [str]. *)
Definition AnalysisResponse_new (caseId : string) (format : option string)
    (output : string) (citations : list Citation) : result AnalysisResponse :=
  match format with
  | Some f => Ok {| ARes_caseId := caseId; ARes_format := f;
                    ARes_output := output; ARes_citations := Some citations |}
  | None => Raise ValidationError
  end.

(** [AnalysisRequest()] *)
Definition AnalysisRequest_default : AnalysisRequest :=
  {| AReq_format := Some "markdown";
     AReq_includeCitations := Some true;
     AReq_sections :=
       Some ["resumo"; "pedidos_decisoes"; "fundamentos"; "analise_critica";
             "recomendacoes"] |}.

(** ** The store and the handler monad *)

Record Store := {
  DB_CASES : gmap string Case;
  DB_DOCS : gmap string (list DocumentInput)
}.

(** The store at process start. *)
Definition Store_init : Store := {| DB_CASES := ∅; DB_DOCS := ∅ |}.

Definition M (A : Type) : Type := Store → result A * Store.

Definition ret {A} (a : A) : M A := λ s, (Ok a, s).
Definition raise {A} (e : exn) : M A := λ s, (Raise e, s).
Definition bind {A B} (m : M A) (k : A → M B) : M B :=
  λ s, match m s with
       | (Ok a, s') => k a s'
       | (Raise e, s') => (Raise e, s')
       end.
Definition lift {A} (r : result A) : M A := λ s, (r, s).
Definition get_store : M Store := λ s, (Ok s, s).

Declare Scope handler_scope.
Delimit Scope handler_scope with handler.
Notation "'let*' x ':=' m 'in' k" := (bind m (λ x, k))
  (at level 10, x name, m at level 100, k at level 200) : handler_scope.

(** [DB_CASES[k] = c] *)
Definition set_case (k : string) (c : Case) : M unit := λ s,
  (Ok tt, {| DB_CASES := <[k := c]> (DB_CASES s); DB_DOCS := DB_DOCS s |}).

(** [DB_DOCS[k] = l] *)
Definition set_docs (k : string) (l : list DocumentInput) : M unit := λ s,
  (Ok tt, {| DB_CASES := DB_CASES s; DB_DOCS := <[k := l]> (DB_DOCS s) |}).

(** [DB_DOCS[k].extend(l)]: the subscript raises [KeyError] on a missing
    key, the list is extended in place. *)
Definition extend_docs (k : string) (l : list DocumentInput) : M unit := λ s,
  match DB_DOCS s !! k with
  | Some old =>
      (Ok tt, {| DB_CASES := DB_CASES s; DB_DOCS := <[k := old ++ l]> (DB_DOCS s) |})
  | None => (Raise KeyError, s)
  end.

(** ** The handlers *)

Section Handlers.

(** [API_KEY = os.getenv("API_BEARER", "changeme")], read once at import. *)
Variable API_KEY : string.

Local Open Scope handler_scope.

Definition check_auth (auth : option string) : result unit :=
  match auth with
  | None => Raise (HTTPException 401 "Bearer token ausente")
  | Some a =>
      if String.eqb a "" || negb (Py.startswith a "Bearer ")
      then Raise (HTTPException 401 "Bearer token ausente")
      else
        match Py.split1 " " a !! 1%nat with
        | None => Raise IndexError
        | Some rest =>
            let token := Py.strip rest in
            if negb (String.eqb token API_KEY)
            then Raise (HTTPException 403 "Token inválido")
            else Ok tt
        end
  end.

Definition create_case (payload : gmap string json)
    (authorization : option string) : M Case :=
  let* _ := lift (check_auth authorization) in
  let title := dict_get payload "title" in
  if negb (truthy title) then raise (HTTPException 400 "title é obrigatório")
  else
    let* s := get_store in
    let case_id := "caso_" +:+ Py.str_of_len (size (DB_CASES s) + 1) in
    let* c := lift (Case_new case_id title (dict_get payload "notes")) in
    let* _ := set_case case_id c in
    let* _ := set_docs case_id [] in
    ret c.

Definition add_documents (caseId : string) (payload : option (gmap string json))
    (authorization : option string) : M MessageBody :=
  let* _ := lift (check_auth authorization) in
  let* s := get_store in
  if negb (bool_decide (caseId ∈ dom (DB_CASES s)))
  then raise (HTTPException 404 "Caso não encontrado")
  else
    let* p := match payload with
              | Some p => ret p
              | None => raise AttributeError
              end in
    let* ds := lift (iterate (dict_get_default p "documents" (JArr []))) in
    let* docs := lift (comprehension DocumentInput_new ds) in
    let* _ := extend_docs caseId docs in
    ret {| message := Py.str_of_len (length docs) +:+ " documento(s) anexado(s) ao "
                      +:+ caseId |}.

Definition get_case (caseId : string) (authorization : option string) : M Case :=
  let* _ := lift (check_auth authorization) in
  let* s := get_store in
  if negb (bool_decide (caseId ∈ dom (DB_CASES s)))
  then raise (HTTPException 404 "Caso não encontrado")
  else
    match DB_CASES s !! caseId with
    | Some c => ret c
    | None => raise KeyError
    end.

Definition analyze_md : string :=
  "## 1. Resumo Executivo" +:+ Py.LF +:+
  "Sentença parcialmente procedente. Horas extras deferidas; insalubridade indeferida."
    +:+ Py.LF +:+ Py.LF +:+
  "## 2. Pedidos x Decisões" +:+ Py.LF +:+
  "| Pedido | Resultado | Fundamento |" +:+ Py.LF +:+ "|---|---|---|" +:+ Py.LF +:+
  "| Horas extras | Parcial | Art. 7º, XVI CF; Art. 59 CLT; Súmula 85/TST |" +:+ Py.LF +:+
  "| Insalubridade | Improcedente | Art. 195 CLT |" +:+ Py.LF +:+ Py.LF +:+
  "## 3. Fundamentos" +:+ Py.LF +:+ "- **Art. 59, CLT**..." +:+ Py.LF +:+
  "- **Súmula 85/TST**..." +:+ Py.LF +:+ Py.LF +:+
  "## 4. Análise Crítica" +:+ Py.LF +:+
  "Ponto fraco: perícia não requerida oportunamente." +:+ Py.LF +:+ Py.LF +:+
  "## 5. Recomendações" +:+ Py.LF +:+
  "RO com tese de cerceamento (art. 5º, LV, CF) + prequestionar art. 818 CLT.".

Definition analyze_citations : list Citation :=
  [ {| Cit_source := "CLT"; Cit_identifier := "Art. 59"; Cit_excerpt := None;
       Cit_url := Some "https://www.planalto.gov.br/ccivil_03/decreto-lei/del5452.htm#art59" |};
    {| Cit_source := "SÚMULA_TST"; Cit_identifier := "Súmula 85"; Cit_excerpt := None;
       Cit_url := Some "https://www.tst.jus.br/jurisprudencia/sumulas" |} ].

Definition analyze_case (caseId : string) (req : AnalysisRequest)
    (authorization : option string) : M AnalysisResponse :=
  let* _ := lift (check_auth authorization) in
  let* s := get_store in
  if negb (bool_decide (caseId ∈ dom (DB_CASES s)))
  then raise (HTTPException 404 "Caso não encontrado")
  else
    let md := analyze_md in
    let citations := analyze_citations in
    lift (AnalysisResponse_new caseId (AReq_format req) md citations).

Definition strategy_roadmap : string :=
  "1) RO (art. 5º, LV, CF)" +:+ Py.LF +:+
  "2) Prequestionar art. 818 CLT e 373 CPC" +:+ Py.LF +:+
  "3) RR c/ transcendência se mantida negativa de perícia".

Definition strategy_case (caseId : string) (req : StrategyRequest)
    (authorization : option string) : M StrategyResponse :=
  let* _ := lift (check_auth authorization) in
  let* s := get_store in
  if negb (bool_decide (caseId ∈ dom (DB_CASES s)))
  then raise (HTTPException 404 "Caso não encontrado")
  else
    let roadmap := strategy_roadmap in
    ret {| SRes_caseId := caseId; SRes_roadmap := roadmap;
           SRes_risks := ["preclusão da perícia"];
           SRes_chances := Some "média-alta" |}.

(** The two citations [search_normas] slices. *)
Definition search_matches : list Citation :=
  [ {| Cit_source := "CLT"; Cit_identifier := "Art. 461";
       Cit_excerpt := Some "Sendo idêntica a função...";
       Cit_url := Some "https://www.planalto.gov.br/ccivil_03/decreto-lei/del5452.htm#art461" |};
    {| Cit_source := "SÚMULA_TST"; Cit_identifier := "Súmula 6";
       Cit_excerpt := Some "Equiparação salarial...";
       Cit_url := Some "https://www.tst.jus.br/jurisprudencia/sumulas" |} ].

Definition search_normas (req : NormaPesquisaRequest)
    (authorization : option string) : M SearchResponse :=
  let* _ := lift (check_auth authorization) in
  let items := Py.slice_to search_matches (NReq_limit req) in
  ret {| Search_items := items |}.

(** ** Requests: one constructor per route *)

Inductive request :=
  | PostCases (payload : gmap string json) (authorization : option string)
  | PostDocuments (caseId : string) (payload : option (gmap string json))
      (authorization : option string)
  | GetCase (caseId : string) (authorization : option string)
  | PostAnalyze (caseId : string) (req : AnalysisRequest) (authorization : option string)
  | PostStrategy (caseId : string) (req : StrategyRequest) (authorization : option string)
  | PostNormas (req : NormaPesquisaRequest) (authorization : option string).

Inductive response :=
  | RCase (c : Case)
  | RMessage (b : MessageBody)
  | RAnalysis (a : AnalysisResponse)
  | RStrategy (r : StrategyResponse)
  | RSearch (r : SearchResponse).

Definition authorization_of (r : request) : option string :=
  match r with
  | PostCases _ a | PostDocuments _ _ a | GetCase _ a
  | PostAnalyze _ _ a | PostStrategy _ _ a | PostNormas _ a => a
  end.

Definition fmap_M {A B} (f : A → B) (m : M A) : M B :=
  let* a := m in ret (f a).

(** The route table. *)
Definition handle (r : request) : M response :=
  match r with
  | PostCases payload a => fmap_M RCase (create_case payload a)
  | PostDocuments caseId payload a => fmap_M RMessage (add_documents caseId payload a)
  | GetCase caseId a => fmap_M RCase (get_case caseId a)
  | PostAnalyze caseId req a => fmap_M RAnalysis (analyze_case caseId req a)
  | PostStrategy caseId req a => fmap_M RStrategy (strategy_case caseId req a)
  | PostNormas req a => fmap_M RSearch (search_normas req a)
  end.

(** The stores the service can be in: the initial one and those a request
    leaves behind, whether it succeeded or raised. *)
Inductive reachable : Store → Prop :=
  | reachable_init : reachable Store_init
  | reachable_step s r : reachable s → reachable (handle r s).2.

End Handlers.

(** ** Vocabulary of the properties *)

(** The shape of a store the service can be in: both dictionaries have the
    same keys, and the keys are [caso_1] to [caso_n] for [n] cases. *)
Definition store_ok (s : Store) : Prop :=
  dom (DB_CASES s) = dom (DB_DOCS s) ∧
  ∀ k : string,
    k ∈ dom (DB_CASES s) ↔
    ∃ i : nat, (1 ≤ i ≤ size (DB_CASES s))%nat ∧ k = "caso_" +:+ Py.str_of_len i.

(** A run of the service: the requests in order, each with its outcome. *)
Fixpoint run (API_KEY : string) (rs : list request) (s : Store)
    : list (request * result response) * Store :=
  match rs with
  | [] => ([], s)
  | r :: rs' =>
      let '(o, s1) := handle API_KEY r s in
      let '(log, s2) := run API_KEY rs' s1 in
      ((r, o) :: log, s2)
  end.

(** The identifiers of the cases a run created, oldest first. *)
Fixpoint created_ids (log : list (request * result response)) : list string :=
  match log with
  | [] => []
  | (PostCases _ _, Ok (RCase c)) :: log' => Case_id c :: created_ids log'
  | _ :: log' => created_ids log'
  end.

(** A document as [add_documents] takes it, in the words of the data model:
    a type from the closed set, a string content, a file name that is
    absent, null or a string, and an encoding that is absent, null or one of
    the two tags. *)
Definition document_ok (kw : gmap string json) : bool :=
  match kw !! "type" with
  | Some (JStr t) => bool_decide (t ∈ type_alternatives)
  | _ => false
  end &&
  match kw !! "content" with
  | Some (JStr _) => true
  | _ => false
  end &&
  match kw !! "filename" with
  | None | Some JNull | Some (JStr _) => true
  | _ => false
  end &&
  match kw !! "encoding" with
  | None | Some JNull => true
  | Some (JStr e) => bool_decide (e ∈ encoding_alternatives)
  | _ => false
  end.

(** A document as the store holds it: a type of the closed set, and an
    encoding that is null or one of the two tags. *)
Definition document_valid (d : DocumentInput) : Prop :=
  Doc_type d ∈ type_alternatives ∧
  (Doc_encoding d = None ∨
   ∃ e, Doc_encoding d = Some e ∧ e ∈ encoding_alternatives).

(** A case as the store holds it under the key [k]. *)
Definition case_valid (k : string) (c : Case) : Prop :=
  Case_id c = k ∧
  Case_matter c = Some "Direito do Trabalho" ∧
  Case_title c ≠ "".

(** * Properties *)

(** ** The authenticator *)

Section Authenticator.

Variable API_KEY : string.

Lemma check_auth_absent :
  check_auth API_KEY None = Raise (HTTPException 401 "Bearer token ausente").
Proof. reflexivity. Qed.

Lemma check_auth_bad_scheme (h : string) :
  Py.startswith h "Bearer " = false →
  check_auth API_KEY (Some h) = Raise (HTTPException 401 "Bearer token ausente").
Proof.
  intros Hp. unfold check_auth. rewrite Hp.
  now rewrite orb_true_r.
Qed.

Lemma bearer_unfold (rest : string) :
  "Bearer " +:+ rest =
  String "B" (String "e" (String "a" (String "r" (String "e" (String "r"
    (String " " rest)))))).
Proof. reflexivity. Qed.

(** With the scheme in place, the token is what follows the first space,
    stripped, and it is compared with the key. *)
Lemma check_auth_bearer (rest : string) :
  check_auth API_KEY (Some ("Bearer " +:+ rest)) =
  if String.eqb (Py.strip rest) API_KEY then Ok tt
  else Raise (HTTPException 403 "Token inválido").
Proof.
  rewrite bearer_unfold. unfold check_auth, Py.startswith, Py.split1.
  cbn -[Py.strip]. destruct rest; cbn -[Py.strip];
    destruct (String.eqb _ API_KEY); reflexivity.
Qed.

Lemma check_auth_wrong_token (rest : string) :
  Py.strip rest ≠ API_KEY →
  check_auth API_KEY (Some ("Bearer " +:+ rest)) =
  Raise (HTTPException 403 "Token inválido").
Proof.
  intros Hne. rewrite check_auth_bearer.
  apply String.eqb_neq in Hne. now rewrite Hne.
Qed.

(** [check_auth] raises nothing but 401 and 403. *)
Lemma check_auth_raises (auth : option string) (e : exn) :
  check_auth API_KEY auth = Raise e →
  e = HTTPException 401 "Bearer token ausente" ∨
  e = HTTPException 403 "Token inválido".
Proof.
  destruct auth as [a|]; [|intros [= <-]; now left].
  destruct (Py.startswith a "Bearer ") eqn:Hp.
  - unfold Py.startswith in Hp. apply String.prefix_correct in Hp.
    simpl in Hp.
    destruct a as [|c0 [|c1 [|c2 [|c3 [|c4 [|c5 [|c6 a]]]]]]]; try discriminate.
    injection Hp as -> -> -> -> -> -> ->.
    rewrite <- bearer_unfold, check_auth_bearer.
    destruct (String.eqb (Py.strip a) API_KEY); [discriminate|].
    intros [= <-]. now right.
  - rewrite (check_auth_bad_scheme _ Hp). intros [= <-]. now left.
Qed.

(** Every route starts with [check_auth]: when it raises, the handler
    raises the same exception and the store is the one it was given. *)
Lemma handle_auth_raise (r : request) (s : Store) (e : exn) :
  check_auth API_KEY (authorization_of r) = Raise e →
  handle API_KEY r s = (Raise e, s).
Proof.
  intros H. destruct r; simpl in H;
    unfold handle, fmap_M, create_case, add_documents, get_case, analyze_case,
      strategy_case, search_normas, bind, lift; rewrite H; reflexivity.
Qed.

End Authenticator.

(** ** The store and its invariant *)

Section StoreInvariant.

Variable API_KEY : string.

(** Unfolds a handler down to the tests it makes and splits on them. *)
Ltac run_handler :=
  unfold handle, fmap_M, create_case, add_documents, get_case, analyze_case,
    strategy_case, search_normas, bind, lift, ret, raise, get_store, set_case,
    set_docs, extend_docs in *;
  repeat (case_match; simplify_eq/=); try done.

(** An exception leaves the store as it was: no handler writes before its
    last point of failure. *)
Lemma handle_raise_unchanged (r : request) (s s' : Store) (e : exn) :
  handle API_KEY r s = (Raise e, s') → s' = s.
Proof. intros H. destruct r; run_handler. Qed.

(** What a successful [create_case] did. *)
Lemma create_case_ok (payload : gmap string json) (auth : option string)
    (s s' : Store) (c : Case) :
  create_case API_KEY payload auth s = (Ok c, s') →
  check_auth API_KEY auth = Ok tt ∧
  truthy (dict_get payload "title") = true ∧
  Case_new ("caso_" +:+ Py.str_of_len (size (DB_CASES s) + 1))
    (dict_get payload "title") (dict_get payload "notes") = Ok c ∧
  s' = {| DB_CASES := <[Case_id c := c]> (DB_CASES s);
          DB_DOCS := <[Case_id c := []]> (DB_DOCS s) |}.
Proof.
  intros H. run_handler.
  match goal with u : unit |- _ => destruct u end.
  split; [done|]. split; [by apply negb_false_iff|].
  split; [done|].
  unfold Case_new, rbind in *. repeat (case_match; simplify_eq/=); done.
Qed.

Lemma Case_new_id (k : string) (title notes : json) (c : Case) :
  Case_new k title notes = Ok c →
  Case_id c = k ∧ Case_matter c = Some "Direito do Trabalho".
Proof.
  unfold Case_new, rbind, str_field, opt_str_field.
  intros H. repeat (case_match; simplify_eq/=); done.
Qed.

(** Only [create_case] writes [DB_CASES]. *)
Lemma handle_cases_unchanged (r : request) (s : Store) :
  (∀ payload a, r ≠ PostCases payload a) →
  DB_CASES (handle API_KEY r s).2 = DB_CASES s.
Proof.
  intros Hr. destruct r; try (by destruct (Hr _ _ eq_refl)); run_handler.
Qed.

(** What a successful [add_documents] did. *)
Lemma add_documents_ok (caseId : string) (payload : option (gmap string json))
    (auth : option string) (s s' : Store) (b : MessageBody) :
  add_documents API_KEY caseId payload auth s = (Ok b, s') →
  ∃ p ds docs old,
    check_auth API_KEY auth = Ok tt ∧
    caseId ∈ dom (DB_CASES s) ∧
    payload = Some p ∧
    iterate (dict_get_default p "documents" (JArr [])) = Ok ds ∧
    comprehension DocumentInput_new ds = Ok docs ∧
    DB_DOCS s !! caseId = Some old ∧
    s' = {| DB_CASES := DB_CASES s;
            DB_DOCS := <[caseId := old ++ docs]> (DB_DOCS s) |} ∧
    b = {| message := Py.str_of_len (length docs)
                      +:+ " documento(s) anexado(s) ao " +:+ caseId |}.
Proof.
  intros H. run_handler.
  match goal with u : unit |- _ => destruct u end.
  match goal with H : negb _ = false |- _ =>
    apply negb_false_iff, bool_decide_eq_true in H end.
  eauto 12.
Qed.

(** The read-only routes return the store they were given. *)
Lemma handle_read_only (r : request) (s : Store) :
  (∀ payload a, r ≠ PostCases payload a) →
  (∀ k payload a, r ≠ PostDocuments k payload a) →
  (handle API_KEY r s).2 = s.
Proof.
  intros H1 H2.
  destruct r; try (by destruct (H1 _ _ eq_refl));
    try (by destruct (H2 _ _ _ eq_refl)); run_handler.
Qed.

Lemma store_ok_init : store_ok Store_init.
Proof.
  split; [done|]. intros k. simpl. rewrite dom_empty_L, map_size_empty.
  split; [set_solver|]. intros (i & Hi & _). lia.
Qed.

(** The next identifier is not a key yet. *)
Lemma next_id_fresh (s : Store) :
  store_ok s →
  "caso_" +:+ Py.str_of_len (size (DB_CASES s) + 1) ∉ dom (DB_CASES s).
Proof.
  intros [_ Hk] Hin. apply Hk in Hin as (i & Hi & Heq).
  unfold Py.str_of_len in Heq. injection Heq as Heq.
  apply pretty_nat_inj in Heq. lia.
Qed.

Lemma store_ok_create (s : Store) (c : Case) :
  store_ok s →
  Case_id c = "caso_" +:+ Py.str_of_len (size (DB_CASES s) + 1) →
  store_ok {| DB_CASES := <[Case_id c := c]> (DB_CASES s);
              DB_DOCS := <[Case_id c := []]> (DB_DOCS s) |}.
Proof.
  intros Hok Hid. pose proof (next_id_fresh s Hok) as Hfresh.
  destruct Hok as [Hdom Hk]. rewrite <- Hid in Hfresh.
  split; simpl.
  - rewrite !dom_insert_L. by rewrite Hdom.
  - intros k. rewrite dom_insert_L, map_size_insert_None
      by (by apply not_elem_of_dom).
    rewrite elem_of_union, elem_of_singleton, Hk. split.
    + intros [-> | (i & Hi & ->)].
      * exists (size (DB_CASES s) + 1)%nat. split; [lia|done].
      * exists i. split; [lia|done].
    + intros (i & Hi & ->).
      destruct (decide (i = size (DB_CASES s) + 1)%nat) as [-> | Hne].
      * by left.
      * right. exists i. split; [lia|done].
Qed.

Lemma store_ok_step (r : request) (s : Store) :
  store_ok s → store_ok (handle API_KEY r s).2.
Proof.
  intros Hok. destruct (handle API_KEY r s) as [[o|e] s'] eqn:Hh; simpl.
  2: { by rewrite (handle_raise_unchanged _ _ _ _ Hh). }
  destruct r;
    try (assert (s' = s) as ->;
         [ match type of Hh with handle _ ?r _ = _ =>
             rewrite <- (handle_read_only r s) by done end;
           by rewrite Hh
         | done ]).
  - simpl in Hh. unfold fmap_M, bind, ret in Hh.
    destruct (create_case API_KEY payload authorization s) as [[c|] s1] eqn:Hc;
      simplify_eq.
    apply create_case_ok in Hc as (_ & _ & Hnew & ->).
    apply Case_new_id in Hnew as [Hid _]. by apply store_ok_create.
  - simpl in Hh. unfold fmap_M, bind, ret in Hh.
    destruct (add_documents API_KEY caseId payload authorization s)
      as [[b|] s1] eqn:Hc; simplify_eq.
    apply add_documents_ok in Hc
      as (p & ds & docs & old & _ & Hin & _ & _ & _ & Hold & -> & _).
    destruct Hok as [Hdom Hk]. split; simpl; [|done].
    rewrite dom_insert_L, <- Hdom. apply set_eq. intros x.
    rewrite elem_of_union, elem_of_singleton.
    split; [by right | by intros [-> | ?]].
Qed.

Lemma reachable_ok (s : Store) : reachable API_KEY s → store_ok s.
Proof.
  induction 1 as [|s r _ IH]; [apply store_ok_init | by apply store_ok_step].
Qed.

(** In a store of the service, a case has its list of documents. *)
Lemma store_ok_docs (s : Store) (caseId : string) :
  store_ok s → caseId ∈ dom (DB_CASES s) → is_Some (DB_DOCS s !! caseId).
Proof. intros [Hdom _] Hin. apply elem_of_dom. by rewrite <- Hdom. Qed.

End StoreInvariant.

(** ** Authorization gate *)

(** C2. For every route and every value of the [Authorization] header: when
    the header is absent or does not start with [Bearer ], the call raises
    the 401 exception and returns the store it was given; when the header
    is [Bearer ] followed by a token that, stripped, is not the key, the
    call raises the 403 exception, again with the store as it was.  The two
    exceptions carry different status codes. *)
Theorem auth_gate (API_KEY : string) (r : request) (s : Store) :
  (authorization_of r = None ∨
   (∃ h, authorization_of r = Some h ∧ Py.startswith h "Bearer " = false) →
   handle API_KEY r s = (Raise (HTTPException 401 "Bearer token ausente"), s)) ∧
  (∀ rest, authorization_of r = Some ("Bearer " +:+ rest) →
           Py.strip rest ≠ API_KEY →
   handle API_KEY r s = (Raise (HTTPException 403 "Token inválido"), s)) ∧
  status_of (HTTPException 401 "Bearer token ausente") ≠
  status_of (HTTPException 403 "Token inválido").
Proof.
  split; [|split].
  - intros [Hnone | (h & Hh & Hp)]; apply handle_auth_raise.
    + rewrite Hnone. apply check_auth_absent.
    + rewrite Hh. by apply check_auth_bad_scheme.
  - intros rest Hh Hne. apply handle_auth_raise.
    rewrite Hh. by apply check_auth_wrong_token.
  - discriminate.
Qed.

Lemma auth_gate_witness :
  handle "changeme" (GetCase "caso_1" (Some "Basic changeme")) Store_init =
    (Raise (HTTPException 401 "Bearer token ausente"), Store_init) ∧
  handle "changeme" (PostCases {[ "title" := JStr "X" ]} (Some "Bearer  segredo "))
    Store_init =
    (Raise (HTTPException 403 "Token inválido"), Store_init).
Proof.
  split.
  - apply (proj1 (auth_gate "changeme" _ Store_init)).
    right. exists "Basic changeme". split; reflexivity.
  - apply (proj1 (proj2 (auth_gate "changeme" _ Store_init)) " segredo ").
    + reflexivity.
    + vm_compute. discriminate.
Defined.

(** ** Unknown cases *)

(** C4. With a valid credential and a case identifier that is not a key of
    [DB_CASES], [get_case], [add_documents], [analyze_case] and
    [strategy_case] all raise the 404 exception and return the store they
    were given. *)
Theorem unknown_case_not_found (API_KEY : string) (s : Store) (caseId : string)
    (auth : option string) (payload : option (gmap string json))
    (areq : AnalysisRequest) (sreq : StrategyRequest) :
  check_auth API_KEY auth = Ok tt →
  caseId ∉ dom (DB_CASES s) →
  get_case API_KEY caseId auth s =
    (Raise (HTTPException 404 "Caso não encontrado"), s) ∧
  add_documents API_KEY caseId payload auth s =
    (Raise (HTTPException 404 "Caso não encontrado"), s) ∧
  analyze_case API_KEY caseId areq auth s =
    (Raise (HTTPException 404 "Caso não encontrado"), s) ∧
  strategy_case API_KEY caseId sreq auth s =
    (Raise (HTTPException 404 "Caso não encontrado"), s).
Proof.
  intros Hauth Hnot.
  assert (negb (bool_decide (caseId ∈ dom (DB_CASES s))) = true) as Hb.
  { apply negb_true_iff. by apply bool_decide_eq_false. }
  unfold get_case, add_documents, analyze_case, strategy_case, bind, lift,
    get_store, raise.
  rewrite Hauth, Hb. done.
Qed.

Lemma unknown_case_not_found_witness :
  let s := (create_case "changeme" {[ "title" := JStr "X" ]}
              (Some "Bearer changeme") Store_init).2 in
  let e := HTTPException 404 "Caso não encontrado" in
  get_case "changeme" "caso_2" (Some "Bearer changeme") s = (Raise e, s) ∧
  add_documents "changeme" "caso_2" (Some ∅) (Some "Bearer changeme") s
    = (Raise e, s) ∧
  analyze_case "changeme" "caso_2" AnalysisRequest_default
    (Some "Bearer changeme") s = (Raise e, s) ∧
  strategy_case "changeme" "caso_2"
    {| SReq_goal := None; SReq_deadline := None; SReq_constraints := None |}
    (Some "Bearer changeme") s = (Raise e, s).
Proof.
  intros s e. apply unknown_case_not_found.
  - reflexivity.
  - vm_compute. intros H. discriminate H.
Defined.

(** ** Creating a case *)

(** C5. With a valid credential and a payload whose [title] is missing or
    the empty string, [create_case] raises the 400 exception and both
    dictionaries are as before the call. *)
Theorem create_case_requires_title (API_KEY : string) (s : Store)
    (payload : gmap string json) (auth : option string) :
  check_auth API_KEY auth = Ok tt →
  payload !! "title" = None ∨ payload !! "title" = Some (JStr "") →
  create_case API_KEY payload auth s =
    (Raise (HTTPException 400 "title é obrigatório"), s).
Proof.
  intros Hauth Ht. unfold create_case, bind, lift, raise, dict_get.
  rewrite Hauth. by destruct Ht as [-> | ->].
Qed.

Lemma create_case_requires_title_witness :
  create_case "changeme" {[ "notes" := JStr "sem título" ]}
    (Some "Bearer changeme") Store_init =
    (Raise (HTTPException 400 "title é obrigatório"), Store_init) ∧
  create_case "changeme" {[ "title" := JStr "" ]}
    (Some "Bearer changeme") Store_init =
    (Raise (HTTPException 400 "title é obrigatório"), Store_init).
Proof.
  split; apply create_case_requires_title.
  - reflexivity.
  - left. reflexivity.
  - reflexivity.
  - right. reflexivity.
Defined.

(** C9. [create_case] does not read a [matter] entry of the payload: every
    case it returns has the matter [Direito do Trabalho], and that case is
    the one stored under its identifier. *)
Theorem create_case_matter_default (API_KEY : string) (s s' : Store)
    (payload : gmap string json) (auth : option string) (c : Case) :
  create_case API_KEY payload auth s = (Ok c, s') →
  Case_matter c = Some "Direito do Trabalho" ∧
  DB_CASES s' !! Case_id c = Some c.
Proof.
  intros H. apply create_case_ok in H as (_ & _ & Hnew & ->).
  apply Case_new_id in Hnew as [_ Hm]. split; [done|].
  simpl. apply lookup_insert_eq.
Qed.

Lemma create_case_matter_default_witness :
  let payload : gmap string json :=
    {[ "title" := JStr "Rescisão indireta"; "matter" := JStr "Direito Civil" ]} in
  let c := {| Case_id := "caso_1"; Case_title := "Rescisão indireta";
              Case_matter := Some "Direito do Trabalho"; Case_notes := None |} in
  Case_matter c = Some "Direito do Trabalho" ∧
  DB_CASES (create_case "changeme" payload (Some "Bearer changeme") Store_init).2
    !! Case_id c = Some c.
Proof.
  intros payload c.
  apply (create_case_matter_default "changeme" Store_init _ payload
           (Some "Bearer changeme") c).
  reflexivity.
Defined.

(** ** Searching norms *)

(** A slice with a bound that is not negative is a prefix, of the length of
    the bound or of the whole list, whichever is smaller. *)
Lemma slice_to_nonneg {A} (l : list A) (k : Z) :
  0 ≤ k →
  Py.slice_to l (Some k) = take (Z.to_nat k) l ∧
  Z.of_nat (length (Py.slice_to l (Some k))) = Z.min k (Z.of_nat (length l)).
Proof.
  intros Hk. unfold Py.slice_to.
  destruct (Z.ltb_spec k 0) as [|_]; [lia|].
  destruct (Z.le_gt_cases k (Z.of_nat (length l))) as [Hle | Hgt].
  - rewrite Z.min_l by done. split; [done|].
    rewrite length_take. lia.
  - rewrite Z.min_r by lia. rewrite Nat2Z.id.
    rewrite firstn_all, (take_ge l (Z.to_nat k)) by lia. done.
Qed.

(** C1, as the code has it.  With a valid credential and a limit that is
    not negative, [search_normas] returns the first [limit] of the available
    citations, in their order, or all of them when there are fewer: the
    count is [min limit available], it is not negative, it does not exceed
    the limit, and it is the limit itself when the limit is smaller than
    the number available.  The store is not touched. *)
Theorem search_normas_limit (API_KEY : string) (s : Store)
    (req : NormaPesquisaRequest) (auth : option string) (limit : Z) :
  check_auth API_KEY auth = Ok tt →
  NReq_limit req = Some limit →
  0 ≤ limit →
  ∃ items,
    search_normas API_KEY req auth s = (Ok {| Search_items := items |}, s) ∧
    items = take (Z.to_nat limit) search_matches ∧
    Z.of_nat (length items) = Z.min limit (Z.of_nat (length search_matches)) ∧
    0 ≤ Z.of_nat (length items) ≤ limit ∧
    (limit < Z.of_nat (length search_matches) → Z.of_nat (length items) = limit).
Proof.
  intros Hauth Hl Hk.
  destruct (slice_to_nonneg search_matches limit Hk) as [Hs Hn].
  exists (Py.slice_to search_matches (Some limit)).
  unfold search_normas, bind, lift, ret. rewrite Hauth, Hl.
  split; [done|]. split; [done|]. split; [done|]. lia.
Qed.

Lemma search_normas_limit_witness :
  ∃ items,
    search_normas "changeme"
      {| NReq_query := "equiparação"; NReq_sources := None; NReq_limit := Some 1 |}
      (Some "Bearer changeme") Store_init
    = (Ok {| Search_items := items |}, Store_init) ∧
    items = take (Z.to_nat 1) search_matches ∧
    Z.of_nat (length items) = Z.min 1 (Z.of_nat (length search_matches)) ∧
    0 ≤ Z.of_nat (length items) ≤ 1 ∧
    (1 < Z.of_nat (length search_matches) → Z.of_nat (length items) = 1).
Proof.
  apply search_normas_limit.
  - reflexivity.
  - reflexivity.
  - lia.
Defined.

(** C1 as stated fails at a negative limit: with [limit = -1] the slice
    drops the last citation and returns one item, which is neither
    [min (-1) 2] nor at most [-1]. *)
Lemma search_normas_negative_limit :
  ∃ items,
    search_normas "changeme"
      {| NReq_query := "equiparação"; NReq_sources := None;
         NReq_limit := Some (-1) |}
      (Some "Bearer changeme") Store_init
    = (Ok {| Search_items := items |}, Store_init) ∧
    length items = 1%nat ∧
    Z.of_nat (length items) ≠ Z.min (-1) (Z.of_nat (length search_matches)) ∧
    ¬ Z.of_nat (length items) ≤ -1.
Proof.
  eexists. split; [reflexivity|]. simpl. repeat split; lia.
Qed.

(** ** Analysing a case *)

(** C10, as the code has it.  For two calls of [analyze_case] with valid
    credentials, on the same case identifier, in any two stores that hold
    the case, with requests whose [format] is not null: both calls return,
    with the same output text and the same list of citations, which is
    present and not empty whatever [includeCitations] and [sections] are;
    the response repeats the identifier and the format of its request. *)
Theorem analyze_case_constant (API_KEY : string) (s1 s2 : Store)
    (caseId : string) (req1 req2 : AnalysisRequest)
    (auth1 auth2 : option string) (f1 f2 : string) :
  check_auth API_KEY auth1 = Ok tt →
  check_auth API_KEY auth2 = Ok tt →
  caseId ∈ dom (DB_CASES s1) →
  caseId ∈ dom (DB_CASES s2) →
  AReq_format req1 = Some f1 →
  AReq_format req2 = Some f2 →
  ∃ r1 r2,
    analyze_case API_KEY caseId req1 auth1 s1 = (Ok r1, s1) ∧
    analyze_case API_KEY caseId req2 auth2 s2 = (Ok r2, s2) ∧
    ARes_output r1 = ARes_output r2 ∧
    ARes_citations r1 = ARes_citations r2 ∧
    (∃ c cs, ARes_citations r1 = Some (c :: cs)) ∧
    ARes_caseId r1 = caseId ∧ ARes_format r1 = f1 ∧
    ARes_caseId r2 = caseId ∧ ARes_format r2 = f2.
Proof.
  intros Ha1 Ha2 Hin1 Hin2 Hf1 Hf2.
  unfold analyze_case, bind, lift, get_store, raise.
  rewrite Ha1, Ha2, Hf1, Hf2.
  rewrite !bool_decide_eq_true_2 by done. simpl.
  do 2 eexists. repeat split; eauto.
Qed.

Lemma analyze_case_constant_witness :
  let s1 := (create_case "changeme" {[ "title" := JStr "X" ]}
               (Some "Bearer changeme") Store_init).2 in
  let s2 := (add_documents "changeme" "caso_1"
               (Some {[ "documents" :=
                  JArr [JObj {[ "type" := JStr "sentenca";
                                "content" := JStr "Vistos." ]}] ]})
               (Some "Bearer changeme") s1).2 in
  let req2 := {| AReq_format := Some "json"; AReq_includeCitations := Some false;
                 AReq_sections := Some ["resumo"] |} in
  ∃ r1 r2,
    analyze_case "changeme" "caso_1" AnalysisRequest_default
      (Some "Bearer changeme") s1 = (Ok r1, s1) ∧
    analyze_case "changeme" "caso_1" req2 (Some "Bearer  changeme") s2
      = (Ok r2, s2) ∧
    ARes_output r1 = ARes_output r2 ∧
    ARes_citations r1 = ARes_citations r2 ∧
    (∃ c cs, ARes_citations r1 = Some (c :: cs)) ∧
    ARes_caseId r1 = "caso_1" ∧ ARes_format r1 = "markdown" ∧
    ARes_caseId r2 = "caso_1" ∧ ARes_format r2 = "json".
Proof.
  intros s1 s2 req2. apply analyze_case_constant.
  - reflexivity.
  - reflexivity.
  - vm_compute. reflexivity.
  - vm_compute. reflexivity.
  - reflexivity.
  - reflexivity.
Defined.

(** C10 as stated fails for a request whose [format] is null, which
    [AnalysisRequest] admits: [AnalysisResponse] wants a string there, so
    the call raises and there is no output text and no citation list. *)
Lemma analyze_case_null_format :
  let s := (create_case "changeme" {[ "title" := JStr "X" ]}
              (Some "Bearer changeme") Store_init).2 in
  let req := {| AReq_format := None; AReq_includeCitations := Some false;
                AReq_sections := None |} in
  "caso_1" ∈ dom (DB_CASES s) ∧
  check_auth "changeme" (Some "Bearer changeme") = Ok tt ∧
  analyze_case "changeme" "caso_1" req (Some "Bearer changeme") s
    = (Raise ValidationError, s) ∧
  ¬ ∃ r s', analyze_case "changeme" "caso_1" req (Some "Bearer changeme") s
            = (Ok r, s').
Proof.
  intros s req. split; [|split; [|split]].
  - vm_compute. reflexivity.
  - reflexivity.
  - reflexivity.
  - intros (r & s' & H). discriminate H.
Qed.

(** ** Validating documents *)

Lemma matches_elem_of (alts : list string) (s : string) :
  matches alts s = bool_decide (s ∈ alts).
Proof.
  unfold matches. induction alts as [|a alts IH]; cbn [existsb].
  - symmetry. apply bool_decide_eq_false_2, not_elem_of_nil.
  - rewrite IH. destruct (String.eqb_spec s a) as [-> | Hne]; cbn [orb].
    + symmetry. apply bool_decide_eq_true_2, list_elem_of_here.
    + apply bool_decide_ext. rewrite elem_of_cons.
      split; [by right | by intros [? | ?]].
Qed.

(** The constructor accepts exactly the documents of [document_ok], and
    raises [ValidationError] on every other dictionary. *)
Lemma DocumentInput_kwargs_spec (kw : gmap string json) :
  if document_ok kw
  then ∃ d, DocumentInput_kwargs kw = Ok d ∧
            kw !! "type" = Some (JStr (Doc_type d)) ∧
            kw !! "content" = Some (JStr (Doc_content d))
  else DocumentInput_kwargs kw = Raise ValidationError.
Proof.
  unfold document_ok, DocumentInput_kwargs, str_pattern_field, str_field,
    opt_str_field, opt_str_pattern_field, rbind.
  destruct (kw !! "type") as [[]|]; simpl; try done.
  rewrite matches_elem_of. case_bool_decide; simpl; [|done].
  destruct (kw !! "content") as [[]|], (kw !! "filename") as [[]|];
    simpl; try done;
    destruct (kw !! "encoding") as [[]|]; simpl; try done;
    rewrite ?matches_elem_of; try case_bool_decide; simpl; try done; eauto.
Qed.

(** A batch is built in full when every document is accepted; otherwise the
    comprehension raises [ValidationError] and builds nothing. *)
Lemma comprehension_documents (kws : list (gmap string json)) :
  if forallb document_ok kws
  then ∃ docs, comprehension DocumentInput_new (JObj <$> kws) = Ok docs ∧
               Forall2 (λ kw d, DocumentInput_kwargs kw = Ok d) kws docs
  else comprehension DocumentInput_new (JObj <$> kws) = Raise ValidationError.
Proof.
  induction kws as [|kw kws IH].
  - exists []. split; [done|constructor].
  - change (comprehension DocumentInput_new (JObj <$> kw :: kws)) with
      (rbind (DocumentInput_kwargs kw) (λ y,
         rbind (comprehension DocumentInput_new (JObj <$> kws))
           (λ ys, Ok (y :: ys)))).
    cbn [forallb].
    pose proof (DocumentInput_kwargs_spec kw) as Hkw.
    destruct (document_ok kw); cbn [andb].
    + destruct Hkw as (d & Hd & _). rewrite Hd. cbn [rbind].
      destruct (forallb document_ok kws).
      * destruct IH as (docs & -> & Hall). cbn [rbind].
        exists (d :: docs). split; [done|by constructor].
      * by rewrite IH.
    + by rewrite Hkw.
Qed.

(** What [add_documents] does with a batch of JSON objects, for a valid
    credential and a case that has its list of documents. *)
Lemma add_documents_batch (API_KEY : string) (s : Store) (caseId : string)
    (auth : option string) (p : gmap string json)
    (kws : list (gmap string json)) (old : list DocumentInput) :
  check_auth API_KEY auth = Ok tt →
  caseId ∈ dom (DB_CASES s) →
  DB_DOCS s !! caseId = Some old →
  p !! "documents" = Some (JArr (JObj <$> kws)) →
  add_documents API_KEY caseId (Some p) auth s =
  match comprehension DocumentInput_new (JObj <$> kws) with
  | Ok docs =>
      (Ok {| message := Py.str_of_len (length docs)
                        +:+ " documento(s) anexado(s) ao " +:+ caseId |},
       {| DB_CASES := DB_CASES s;
          DB_DOCS := <[caseId := old ++ docs]> (DB_DOCS s) |})
  | Raise e => (Raise e, s)
  end.
Proof.
  intros Hauth Hin Hold Hp.
  unfold add_documents, bind, lift, get_store, ret, raise, extend_docs,
    dict_get_default.
  rewrite Hauth, bool_decide_eq_true_2 by done. simpl.
  rewrite Hp. simpl.
  destruct (comprehension DocumentInput_new (JObj <$> kws)); [|done].
  by rewrite Hold.
Qed.

(** ** Attaching documents *)

(** C7, as the code has it.  For a case of the service and a valid
    credential, [add_documents] takes a batch of JSON objects exactly when
    every one of them is a document of [document_ok]: its type is one of
    [peticao_inicial], [contestacao], [sentenca], [ed], [ro], [acordao],
    [rr], [airr], [ai], [edtst], [rext], [ap], [outro], its content is a
    string, its file name is absent, null or a string, and its encoding is
    absent, null, [plain] or [base64]; the documents are then appended and
    counted.  A batch with any other object raises [ValidationError] and
    the store is as before. *)
Theorem add_documents_validates (API_KEY : string) (s : Store) (caseId : string)
    (auth : option string) (p : gmap string json)
    (kws : list (gmap string json)) :
  reachable API_KEY s →
  check_auth API_KEY auth = Ok tt →
  caseId ∈ dom (DB_CASES s) →
  p !! "documents" = Some (JArr (JObj <$> kws)) →
  if forallb document_ok kws
  then ∃ docs old,
         Forall2 (λ kw d, DocumentInput_kwargs kw = Ok d) kws docs ∧
         DB_DOCS s !! caseId = Some old ∧
         add_documents API_KEY caseId (Some p) auth s =
         (Ok {| message := Py.str_of_len (length kws)
                           +:+ " documento(s) anexado(s) ao " +:+ caseId |},
          {| DB_CASES := DB_CASES s;
             DB_DOCS := <[caseId := old ++ docs]> (DB_DOCS s) |})
  else add_documents API_KEY caseId (Some p) auth s = (Raise ValidationError, s).
Proof.
  intros Hreach Hauth Hin Hp.
  destruct (store_ok_docs s caseId (reachable_ok _ _ Hreach) Hin) as [old Hold].
  rewrite (add_documents_batch _ _ _ _ _ _ _ Hauth Hin Hold Hp).
  pose proof (comprehension_documents kws) as Hc.
  destruct (forallb document_ok kws).
  - destruct Hc as (docs & -> & Hall). exists docs, old.
    by rewrite (Forall2_length _ _ _ Hall).
  - by rewrite Hc.
Qed.

Lemma add_documents_validates_witness :
  let s := (handle "changeme"
              (PostCases {[ "title" := JStr "X" ]} (Some "Bearer changeme"))
              Store_init).2 in
  let good : gmap string json :=
    {[ "type" := JStr "peticao_inicial"; "content" := JStr "Exmo. Sr. Juiz" ]} in
  let bad : gmap string json :=
    {[ "type" := JStr "memorial"; "content" := JStr "..." ]} in
  (∃ docs old,
     Forall2 (λ kw d, DocumentInput_kwargs kw = Ok d) [good] docs ∧
     DB_DOCS s !! "caso_1" = Some old ∧
     add_documents "changeme" "caso_1"
       (Some {[ "documents" := JArr [JObj good] ]}) (Some "Bearer changeme") s =
     (Ok {| message := "1 documento(s) anexado(s) ao caso_1" |},
      {| DB_CASES := DB_CASES s;
         DB_DOCS := <["caso_1" := old ++ docs]> (DB_DOCS s) |})) ∧
  add_documents "changeme" "caso_1"
    (Some {[ "documents" := JArr [JObj good; JObj bad] ]})
    (Some "Bearer changeme") s = (Raise ValidationError, s).
Proof.
  intros s good bad.
  assert (reachable "changeme" s) as Hs.
  { apply (reachable_step "changeme" Store_init
             (PostCases {[ "title" := JStr "X" ]} (Some "Bearer changeme"))).
    apply reachable_init. }
  split.
  - apply (add_documents_validates "changeme" s "caso_1" (Some "Bearer changeme")
             {[ "documents" := JArr [JObj good] ]} [good] Hs).
    + reflexivity.
    + vm_compute. reflexivity.
    + reflexivity.
  - apply (add_documents_validates "changeme" s "caso_1" (Some "Bearer changeme")
             {[ "documents" := JArr [JObj good; JObj bad] ]} [good; bad] Hs).
    + reflexivity.
    + vm_compute. reflexivity.
    + reflexivity.
Defined.

(** C7 as stated fails on the names of the types: a document of type
    [initial_petition] with encoding [plain], both in the sets of the claim,
    is rejected. *)
Lemma add_documents_rejects_initial_petition :
  let s := (create_case "changeme" {[ "title" := JStr "X" ]}
              (Some "Bearer changeme") Store_init).2 in
  let kw : gmap string json :=
    {[ "type" := JStr "initial_petition"; "content" := JStr "Exmo. Sr. Juiz";
       "encoding" := JStr "plain" ]} in
  "initial_petition" ∈
    ["initial_petition"; "defense"; "judgment"; "clarification_motion";
     "ordinary_appeal"; "panel_decision"; "special_appeal";
     "special_appeal_interlocutory"; "interlocutory_appeal";
     "clarification_motion_superior"; "extraordinary_appeal"; "appeal";
     "other"] ∧
  "plain" ∈ ["plain"; "base64"] ∧
  "caso_1" ∈ dom (DB_CASES s) ∧
  add_documents "changeme" "caso_1" (Some {[ "documents" := JArr [JObj kw] ]})
    (Some "Bearer changeme") s = (Raise ValidationError, s).
Proof.
  intros s kw. split; [apply list_elem_of_here|].
  split; [apply list_elem_of_here|].
  split; [vm_compute; reflexivity | reflexivity].
Qed.









(** C8. For a case of the service and a valid credential, attaching the
    batch of two documents and then the batch of one leaves the documents
    of the case in the order of attachment, after those it already had;
    the first call reports 2 documents and the second reports 1. *)
Theorem add_documents_order (API_KEY : string) (s : Store) (caseId : string)
    (auth : option string) (p1 p2 : gmap string json)
    (kw1 kw2 kw3 : gmap string json) (d1 d2 d3 : DocumentInput) :
  reachable API_KEY s →
  check_auth API_KEY auth = Ok tt →
  caseId ∈ dom (DB_CASES s) →
  p1 !! "documents" = Some (JArr [JObj kw1; JObj kw2]) →
  p2 !! "documents" = Some (JArr [JObj kw3]) →
  DocumentInput_kwargs kw1 = Ok d1 →
  DocumentInput_kwargs kw2 = Ok d2 →
  DocumentInput_kwargs kw3 = Ok d3 →
  ∃ old s1 s2,
    DB_DOCS s !! caseId = Some old ∧
    add_documents API_KEY caseId (Some p1) auth s =
      (Ok {| message := "2 documento(s) anexado(s) ao " +:+ caseId |}, s1) ∧
    add_documents API_KEY caseId (Some p2) auth s1 =
      (Ok {| message := "1 documento(s) anexado(s) ao " +:+ caseId |}, s2) ∧
    DB_DOCS s2 !! caseId = Some (old ++ [d1; d2; d3]) ∧
    DB_CASES s2 = DB_CASES s.
Proof.
  intros Hreach Hauth Hin Hp1 Hp2 H1 H2 H3.
  destruct (store_ok_docs s caseId (reachable_ok _ _ Hreach) Hin) as [old Hold].
  set (s1 := {| DB_CASES := DB_CASES s;
                DB_DOCS := <[caseId := old ++ [d1; d2]]> (DB_DOCS s) |}).
  set (s2 := {| DB_CASES := DB_CASES s1;
                DB_DOCS := <[caseId := (old ++ [d1; d2]) ++ [d3]]> (DB_DOCS s1) |}).
  exists old, s1, s2. split; [done|].
  assert (DB_DOCS s1 !! caseId = Some (old ++ [d1; d2])) as Hold1
    by apply lookup_insert_eq.
  split; [|split; [|split]].
  - rewrite (add_documents_batch _ _ _ _ _ [kw1; kw2] _ Hauth Hin Hold Hp1).
    cbn [fmap list_fmap comprehension DocumentInput_new rbind].
    rewrite H1, H2. done.
  - rewrite (add_documents_batch _ s1 _ _ _ [kw3] _ Hauth Hin Hold1 Hp2).
    cbn [fmap list_fmap comprehension DocumentInput_new rbind].
    rewrite H3. done.
  - simpl. rewrite lookup_insert_eq. by rewrite <- app_assoc.
  - done.
Qed.

Lemma add_documents_order_witness :
  let auth := Some "Bearer changeme" in
  let s := (handle "changeme" (PostCases {[ "title" := JStr "X" ]} auth)
              Store_init).2 in
  let doc (t c : string) : gmap string json :=
    {[ "type" := JStr t; "content" := JStr c ]} in
  let rec_ (t c : string) : DocumentInput :=
    {| Doc_type := t; Doc_filename := None; Doc_content := c;
       Doc_encoding := Some "plain" |} in
  ∃ old s1 s2,
    DB_DOCS s !! "caso_1" = Some old ∧
    add_documents "changeme" "caso_1"
      (Some {[ "documents" := JArr [JObj (doc "peticao_inicial" "a");
                                    JObj (doc "sentenca" "b")] ]}) auth s =
      (Ok {| message := "2 documento(s) anexado(s) ao " +:+ "caso_1" |}, s1) ∧
    add_documents "changeme" "caso_1"
      (Some {[ "documents" := JArr [JObj (doc "ro" "c")] ]}) auth s1 =
      (Ok {| message := "1 documento(s) anexado(s) ao " +:+ "caso_1" |}, s2) ∧
    DB_DOCS s2 !! "caso_1" =
      Some (old ++ [rec_ "peticao_inicial" "a"; rec_ "sentenca" "b"; rec_ "ro" "c"]) ∧
    DB_CASES s2 = DB_CASES s.
Proof.
  intros auth s doc rec_.
  apply (add_documents_order "changeme" s "caso_1" auth
           {[ "documents" := JArr [JObj (doc "peticao_inicial" "a");
                                   JObj (doc "sentenca" "b")] ]}
           {[ "documents" := JArr [JObj (doc "ro" "c")] ]}
           (doc "peticao_inicial" "a") (doc "sentenca" "b") (doc "ro" "c")).
  - apply (reachable_step "changeme" Store_init
             (PostCases {[ "title" := JStr "X" ]} auth)).
    apply reachable_init.
  - reflexivity.
  - vm_compute. reflexivity.
  - reflexivity.
  - reflexivity.
  - reflexivity.
  - reflexivity.
  - reflexivity.
Defined.

(** ** Case identifiers *)

Section Runs.

Variable API_KEY : string.

(** A request either creates a case, or adds no identifier to the log and
    leaves [DB_CASES] as it was. *)
Lemma handle_created (r : request) (s s1 : Store) (o : result response) :
  handle API_KEY r s = (o, s1) →
  (∃ p a c, r = PostCases p a ∧ o = Ok (RCase c) ∧
            create_case API_KEY p a s = (Ok c, s1)) ∨
  ((∀ log, created_ids ((r, o) :: log) = created_ids log) ∧
   DB_CASES s1 = DB_CASES s).
Proof.
  intros Hh. destruct o as [resp | e].
  - destruct r as [p a| | | | |].
    { left. simpl in Hh. unfold fmap_M, bind, ret in Hh.
      destruct (create_case API_KEY p a s) as [[c|] s'] eqn:Hc; simplify_eq.
      by exists p, a, c. }
    all: right; split; [done|];
      match type of Hh with handle _ ?r _ = _ =>
        rewrite <- (handle_cases_unchanged API_KEY r s) by done end;
      by rewrite Hh.
  - right. apply handle_raise_unchanged in Hh as ->.
    split; [|done]. by destruct r.
Qed.

(** Along a run that starts in a store of the service: the store stays one,
    [DB_CASES] grows by the cases created, every created identifier is a
    key at the end and was none at the start, and no identifier is created
    twice. *)
Lemma run_created (rs : list request) (s0 : Store) :
  store_ok s0 →
  store_ok ((run API_KEY rs s0).2) ∧
  size (DB_CASES ((run API_KEY rs s0).2)) =
    (size (DB_CASES s0) + length (created_ids ((run API_KEY rs s0).1)))%nat ∧
  dom (DB_CASES s0) ⊆ dom (DB_CASES ((run API_KEY rs s0).2)) ∧
  (∀ k, k ∈ created_ids ((run API_KEY rs s0).1) →
        k ∈ dom (DB_CASES ((run API_KEY rs s0).2)) ∧ k ∉ dom (DB_CASES s0)) ∧
  NoDup (created_ids ((run API_KEY rs s0).1)).
Proof.
  revert s0. induction rs as [|r rs IH]; intros s0 Hok.
  - simpl. split; [done|]. split; [lia|]. split; [done|].
    split; [|constructor]. intros k Hk. by apply not_elem_of_nil in Hk.
  - cbn [run].
    destruct (handle API_KEY r s0) as [o s1] eqn:Hh.
    pose proof (store_ok_step API_KEY r s0 Hok) as Hok1. rewrite Hh in Hok1.
    cbn [snd] in Hok1.
    specialize (IH s1 Hok1).
    destruct (run API_KEY rs s1) as [log s2] eqn:Hrun. cbn [fst snd] in *.
    destruct IH as (Hok2 & Hsize & Hsub & Hkeys & Hnd).
    destruct (handle_created r s0 s1 o Hh)
      as [(p & a & c & -> & -> & Hc) | [Hlog Hcases]].
    + apply create_case_ok in Hc as (_ & _ & Hnew & ->).
      apply Case_new_id in Hnew as [Hid _].
      pose proof (next_id_fresh s0 Hok) as Hfresh. rewrite <- Hid in Hfresh.
      cbn [created_ids DB_CASES] in *.
      rewrite map_size_insert_None in Hsize by (by apply not_elem_of_dom).
      rewrite dom_insert_L in Hsub, Hkeys.
      split; [done|]. split; [simpl; lia|].
      split; [intros k Hk; apply Hsub, elem_of_union; by right|]. split.
      * intros k [-> | Hk]%elem_of_cons.
        -- split; [|done]. apply Hsub, elem_of_union. left.
           by apply elem_of_singleton.
        -- destruct (Hkeys k Hk) as [? Hn]. split; [done|].
           intros ?. apply Hn, elem_of_union. by right.
      * constructor; [|done]. intros Hk.
        destruct (Hkeys _ Hk) as [_ Hn]. apply Hn, elem_of_union. left.
        by apply elem_of_singleton.
    + rewrite Hlog. rewrite Hcases in *. done.
Qed.

End Runs.

(** C6, as the code has it.  After any run of requests from the initial
    store, a successful [create_case] returns an identifier that no earlier
    [create_case] of the run returned; the identifier is [caso_n] for the
    [n]-th case created, so the first is [caso_1] and the second [caso_2];
    the matter of the case is [Direito do Trabalho]. *)
Theorem create_case_ids (API_KEY : string) (rs : list request)
    (p : gmap string json) (a : option string) (c : Case) (s' : Store) :
  create_case API_KEY p a ((run API_KEY rs Store_init).2) = (Ok c, s') →
  (Case_id c ∉ created_ids ((run API_KEY rs Store_init).1)) ∧
  NoDup (created_ids ((run API_KEY rs Store_init).1)) ∧
  Case_id c =
    "caso_" +:+ Py.str_of_len
                  (length (created_ids ((run API_KEY rs Store_init).1)) + 1) ∧
  Case_matter c = Some "Direito do Trabalho" ∧
  (length (created_ids ((run API_KEY rs Store_init).1)) = 0%nat →
   Case_id c = "caso_1") ∧
  (length (created_ids ((run API_KEY rs Store_init).1)) = 1%nat →
   Case_id c = "caso_2").
Proof.
  intros Hc.
  destruct (run_created API_KEY rs Store_init store_ok_init)
    as (Hok & Hsize & _ & Hkeys & Hnd).
  apply create_case_ok in Hc as (_ & _ & Hnew & _).
  apply Case_new_id in Hnew as [Hid Hm].
  pose proof (next_id_fresh _ Hok) as Hfresh. rewrite <- Hid in Hfresh.
  rewrite Hsize in Hid. simpl in Hid.
  split; [|split; [done|split; [done|split; [done|split]]]].
  - intros Hk. by destruct (Hkeys _ Hk) as [? _].
  - intros H0. by rewrite H0 in Hid.
  - intros H1. by rewrite H1 in Hid.
Qed.

Lemma create_case_ids_witness :
  let auth := Some "Bearer changeme" in
  let rs := [PostCases {[ "title" := JStr "Reclamação Trabalhista X" ]} auth;
             GetCase "caso_1" auth] in
  let c := {| Case_id := "caso_2"; Case_title := "Reclamação Trabalhista Y";
              Case_matter := Some "Direito do Trabalho"; Case_notes := None |} in
  (Case_id c ∉ created_ids ((run "changeme" rs Store_init).1)) ∧
  NoDup (created_ids ((run "changeme" rs Store_init).1)) ∧
  Case_id c =
    "caso_" +:+ Py.str_of_len
                  (length (created_ids ((run "changeme" rs Store_init).1)) + 1) ∧
  Case_matter c = Some "Direito do Trabalho" ∧
  (length (created_ids ((run "changeme" rs Store_init).1)) = 0%nat →
   Case_id c = "caso_1") ∧
  (length (created_ids ((run "changeme" rs Store_init).1)) = 1%nat →
   Case_id c = "caso_2").
Proof.
  intros auth rs c.
  apply (create_case_ids "changeme" rs
           {[ "title" := JStr "Reclamação Trabalhista Y" ]} auth c
           ((create_case "changeme"
               {[ "title" := JStr "Reclamação Trabalhista Y" ]} auth
               ((run "changeme" rs Store_init).2)).2)).
  vm_compute. reflexivity.
Defined.

(** C6 as stated fails on the name of the identifier: the first case
    created is [caso_1], not [case_1], and the second is [caso_2]. *)
Lemma first_case_id_is_caso_1 :
  let auth := Some "Bearer changeme" in
  let r1 := create_case "changeme"
              {[ "title" := JStr "Reclamação Trabalhista X" ]} auth Store_init in
  let r2 := create_case "changeme"
              {[ "title" := JStr "Reclamação Trabalhista Y" ]} auth r1.2 in
  (∃ c, r1.1 = Ok c ∧ Case_id c = "caso_1" ∧ Case_id c ≠ "case_1" ∧
        Case_matter c = Some "Direito do Trabalho") ∧
  (∃ c, r2.1 = Ok c ∧ Case_id c = "caso_2" ∧ Case_id c ≠ "case_2").
Proof.
  intros auth r1 r2. split; eexists; (split; [reflexivity|]); simpl; done.
Qed.

(** * Further properties of the handlers *)

(** ** Accepted credentials *)

(** X1. [check_auth] returns normally exactly for a header made of
    [Bearer ], one space included, followed by text that is the key once
    the white space around it is stripped. *)
Theorem check_auth_accepts_iff (API_KEY : string) (auth : option string) :
  check_auth API_KEY auth = Ok tt ↔
  ∃ rest, auth = Some ("Bearer " +:+ rest) ∧ Py.strip rest = API_KEY.
Proof.
  split.
  - destruct auth as [a|]; [|discriminate].
    destruct (Py.startswith a "Bearer ") eqn:Hp.
    + unfold Py.startswith in Hp. apply String.prefix_correct in Hp.
      simpl in Hp.
      destruct a as [|c0 [|c1 [|c2 [|c3 [|c4 [|c5 [|c6 a]]]]]]];
        try discriminate.
      injection Hp as -> -> -> -> -> -> ->.
      rewrite <- bearer_unfold, check_auth_bearer.
      destruct (String.eqb_spec (Py.strip a) API_KEY) as [Heq | _];
        [|discriminate].
      intros _. by exists a.
    + by rewrite (check_auth_bad_scheme _ _ Hp).
  - intros (rest & -> & Heq). rewrite check_auth_bearer.
    apply String.eqb_eq in Heq. by rewrite Heq.
Qed.

Lemma check_auth_accepts_iff_witness :
  check_auth "changeme" (Some "Bearer  changeme ") = Ok tt.
Proof.
  apply (proj2 (check_auth_accepts_iff "changeme" (Some "Bearer  changeme "))).
  exists " changeme ". split; reflexivity.
Defined.

(** X2. Whatever the header, the only exceptions of [check_auth] are the
    401 and the 403 ones: the subscript [[1]] after [split] never fails. *)
Theorem check_auth_raises_only (API_KEY : string) (auth : option string)
    (e : exn) :
  check_auth API_KEY auth = Raise e →
  status_of e = Some 401 ∨ status_of e = Some 403.
Proof.
  intros H. by destruct (check_auth_raises _ _ _ H) as [-> | ->]; [left|right].
Qed.

Lemma check_auth_raises_only_witness :
  status_of (HTTPException 401 "Bearer token ausente") = Some 401 ∨
  status_of (HTTPException 401 "Bearer token ausente") = Some 403.
Proof.
  apply (check_auth_raises_only "changeme" (Some "Bearer")). reflexivity.
Defined.

(** ** Creating and reading a case *)

(** X3. With a valid credential, a title that is a string and not empty,
    and notes that are absent, null or a string, [create_case] returns the
    case numbered one past the number of cases, with the title and notes of
    the payload; it stores the case under its identifier together with an
    empty list of documents. *)
Theorem create_case_succeeds (API_KEY : string) (s : Store)
    (payload : gmap string json) (auth : option string)
    (t : string) (n : option string) :
  check_auth API_KEY auth = Ok tt →
  payload !! "title" = Some (JStr t) →
  t ≠ "" →
  (payload !! "notes" = None ∧ n = None ∨
   payload !! "notes" = Some JNull ∧ n = None ∨
   ∃ x, payload !! "notes" = Some (JStr x) ∧ n = Some x) →
  let k := "caso_" +:+ Py.str_of_len (size (DB_CASES s) + 1) in
  let c := {| Case_id := k; Case_title := t;
              Case_matter := Some "Direito do Trabalho"; Case_notes := n |} in
  create_case API_KEY payload auth s =
  (Ok c, {| DB_CASES := <[k := c]> (DB_CASES s);
            DB_DOCS := <[k := []]> (DB_DOCS s) |}).
Proof.
  intros Hauth Ht Hne Hn k c.
  unfold create_case, bind, lift, raise, ret, get_store, set_case, set_docs,
    dict_get.
  rewrite Hauth, Ht. cbn [from_option id truthy].
  apply String.eqb_neq in Hne. rewrite Hne. cbn [negb].
  destruct Hn as [[-> ->] | [[-> ->] | (x & -> & ->)]]; reflexivity.
Qed.

Lemma create_case_succeeds_witness :
  let payload : gmap string json :=
    {[ "title" := JStr "Horas extras"; "notes" := JStr "urgente" ]} in
  let c := {| Case_id := "caso_1"; Case_title := "Horas extras";
              Case_matter := Some "Direito do Trabalho";
              Case_notes := Some "urgente" |} in
  create_case "changeme" payload (Some "Bearer changeme") Store_init =
  (Ok c, {| DB_CASES := <["caso_1" := c]> ∅; DB_DOCS := <["caso_1" := []]> ∅ |}).
Proof.
  intros payload c.
  apply (create_case_succeeds "changeme" Store_init payload
           (Some "Bearer changeme") "Horas extras" (Some "urgente")).
  - reflexivity.
  - reflexivity.
  - discriminate.
  - right; right. exists "urgente". split; reflexivity.
Defined.

(** X4. With a valid credential, a title that is truthy but not a string (a
    number, [true], a list or an object that is not empty) passes the test
    on the title and then fails the validation of [Case]; so do notes that
    are neither null nor a string, under a proper title.  The call raises
    [ValidationError] and stores nothing. *)
Theorem create_case_rejects_non_strings (API_KEY : string) (s : Store)
    (payload : gmap string json) (auth : option string) (v : json) :
  check_auth API_KEY auth = Ok tt →
  (payload !! "title" = Some v ∧ truthy v = true ∧ (∀ t, v ≠ JStr t)) ∨
  (truthy (dict_get payload "title") = true ∧
   payload !! "notes" = Some v ∧ v ≠ JNull ∧ (∀ x, v ≠ JStr x)) →
  create_case API_KEY payload auth s = (Raise ValidationError, s).
Proof.
  intros Hauth Hv.
  unfold create_case, bind, lift, raise, ret, get_store, dict_get in *.
  rewrite Hauth.
  destruct Hv as [(Ht & Htruthy & Hns) | (Htruthy & Hn & Hnull & Hns)].
  - rewrite Ht. cbn [from_option id]. rewrite Htruthy. cbn [negb].
    unfold Case_new. destruct v as [| | | |x| |]; try reflexivity.
    exfalso. by apply (Hns x).
  - rewrite Htruthy, Hn. cbn [negb from_option id].
    unfold Case_new, rbind.
    destruct (default JNull (payload !! "title")); try reflexivity.
    destruct v as [| | | |x| |]; try reflexivity; [done|].
    exfalso. by apply (Hns x).
Qed.

Lemma create_case_rejects_non_strings_witness :
  create_case "changeme" {[ "title" := JInt 7 ]} (Some "Bearer changeme")
    Store_init = (Raise ValidationError, Store_init) ∧
  create_case "changeme" {[ "title" := JStr "X"; "notes" := JArr [JStr "a"] ]}
    (Some "Bearer changeme") Store_init = (Raise ValidationError, Store_init).
Proof.
  split.
  - apply (create_case_rejects_non_strings "changeme" Store_init
             {[ "title" := JInt 7 ]} (Some "Bearer changeme") (JInt 7)).
    + reflexivity.
    + left. split; [reflexivity|]. split; [reflexivity|]. discriminate.
  - apply (create_case_rejects_non_strings "changeme" Store_init
             {[ "title" := JStr "X"; "notes" := JArr [JStr "a"] ]}
             (Some "Bearer changeme") (JArr [JStr "a"])).
    + reflexivity.
    + right. split; [reflexivity|]. split; [reflexivity|].
      split; discriminate.
Defined.

(** X5. A case that [create_case] returned is the case [get_case] returns
    for its identifier, for any valid credential, and reading it leaves the
    store as it is. *)
Theorem create_then_get (API_KEY : string) (s s' : Store)
    (payload : gmap string json) (auth auth' : option string) (c : Case) :
  create_case API_KEY payload auth s = (Ok c, s') →
  check_auth API_KEY auth' = Ok tt →
  get_case API_KEY (Case_id c) auth' s' = (Ok c, s').
Proof.
  intros Hc Hauth. apply create_case_ok in Hc as (_ & _ & _ & ->).
  unfold get_case, bind, lift, get_store, raise, ret. rewrite Hauth. simpl.
  rewrite bool_decide_eq_true_2
    by (rewrite dom_insert_L, elem_of_union, elem_of_singleton; by left).
  simpl. by rewrite lookup_insert_eq.
Qed.

Lemma create_then_get_witness :
  let r := create_case "changeme" {[ "title" := JStr "Horas extras" ]}
             (Some "Bearer changeme") Store_init in
  let c := {| Case_id := "caso_1"; Case_title := "Horas extras";
              Case_matter := Some "Direito do Trabalho"; Case_notes := None |} in
  get_case "changeme" (Case_id c) (Some "Bearer changeme ") r.2 = (Ok c, r.2).
Proof.
  intros r c.
  apply (create_then_get "changeme" Store_init r.2
           {[ "title" := JStr "Horas extras" ]} (Some "Bearer changeme")).
  - reflexivity.
  - reflexivity.
Defined.

(** ** What a request does to the store *)

(** A request leaves the store as it is, or it created a case, or it
    attached documents. *)
Lemma handle_step (API_KEY : string) (r : request) (s s1 : Store)
    (o : result response) :
  handle API_KEY r s = (o, s1) →
  s1 = s ∨
  (∃ p a c, r = PostCases p a ∧ create_case API_KEY p a s = (Ok c, s1)) ∨
  (∃ k p a b, r = PostDocuments k p a ∧
              add_documents API_KEY k p a s = (Ok b, s1)).
Proof.
  intros Hh. destruct o as [resp | e].
  2: { left. by apply handle_raise_unchanged in Hh. }
  destruct r as [p a | k p a | | | |].
  - right; left. simpl in Hh. unfold fmap_M, bind, ret in Hh.
    destruct (create_case API_KEY p a s) as [[c|] s'] eqn:Hc; simplify_eq.
    by exists p, a, c.
  - right; right. simpl in Hh. unfold fmap_M, bind, ret in Hh.
    destruct (add_documents API_KEY k p a s) as [[b|] s'] eqn:Hc; simplify_eq.
    by exists k, p, a, b.
  - left. rewrite <- (handle_read_only API_KEY (GetCase caseId authorization) s)
      by done. by rewrite Hh.
  - left. rewrite <- (handle_read_only API_KEY
                        (PostAnalyze caseId req authorization) s) by done.
    by rewrite Hh.
  - left. rewrite <- (handle_read_only API_KEY
                        (PostStrategy caseId req authorization) s) by done.
    by rewrite Hh.
  - left. rewrite <- (handle_read_only API_KEY (PostNormas req authorization) s)
      by done. by rewrite Hh.
Qed.

(** The store a successful [create_case] leaves has the new case under a
    key that was free in both dictionaries. *)
Lemma create_case_fresh (API_KEY : string) (s s1 : Store)
    (p : gmap string json) (a : option string) (c : Case) :
  store_ok s →
  create_case API_KEY p a s = (Ok c, s1) →
  DB_CASES s !! Case_id c = None ∧ DB_DOCS s !! Case_id c = None ∧
  case_valid (Case_id c) c ∧
  s1 = {| DB_CASES := <[Case_id c := c]> (DB_CASES s);
          DB_DOCS := <[Case_id c := []]> (DB_DOCS s) |}.
Proof.
  intros Hok Hc. apply create_case_ok in Hc as (_ & Htruthy & Hnew & ->).
  pose proof (Case_new_id _ _ _ _ Hnew) as [Hid Hm].
  pose proof (next_id_fresh s Hok) as Hfresh. rewrite <- Hid in Hfresh.
  split; [by apply not_elem_of_dom|].
  split; [apply not_elem_of_dom; by rewrite <- (proj1 Hok)|].
  split; [|done]. split; [done|]. split; [done|].
  unfold Case_new, rbind, str_field in Hnew.
  destruct (dict_get p "title") as [| | | |t| |]; try discriminate.
  destruct (opt_str_field None _); simplify_eq/=.
  intros ->. discriminate.
Qed.

Lemma DocumentInput_kwargs_valid (kw : gmap string json) (d : DocumentInput) :
  DocumentInput_kwargs kw = Ok d → document_valid d.
Proof.
  unfold DocumentInput_kwargs, str_pattern_field, str_field, opt_str_field,
    opt_str_pattern_field, rbind, document_valid.
  destruct (kw !! "type") as [[| | | |t| |]|]; try discriminate.
  rewrite matches_elem_of. case_bool_decide as Ht; [|discriminate].
  destruct (kw !! "filename") as [[]|]; try discriminate;
    destruct (kw !! "content") as [[]|]; try discriminate;
    destruct (kw !! "encoding") as [[| | | |e| |]|]; try discriminate;
    rewrite ?matches_elem_of; try case_bool_decide; try discriminate;
    intros [= <-]; simpl; (split; [done|]); eauto.
  all: right; eexists; split; [done|apply list_elem_of_here].
Qed.

Lemma comprehension_valid (ds : list json) (docs : list DocumentInput) :
  comprehension DocumentInput_new ds = Ok docs → Forall document_valid docs.
Proof.
  revert docs. induction ds as [|j ds IH]; intros docs; simpl.
  - intros [= <-]. constructor.
  - unfold rbind.
    destruct (DocumentInput_new j) as [d|] eqn:Hd; [|discriminate].
    destruct (comprehension DocumentInput_new ds) as [docs'|]; [|discriminate].
    intros [= <-]. constructor; [|by apply IH].
    destruct j; try discriminate. by apply DocumentInput_kwargs_valid in Hd.
Qed.

(** ** Invariants of the store *)

(** X6. In a store of the service, both dictionaries have the same keys,
    and with [n] cases the keys are [caso_1] to [caso_n]: no request
    breaks this, whether it succeeds or raises. *)
Theorem reachable_store_shape (API_KEY : string) (s : Store) :
  reachable API_KEY s →
  dom (DB_CASES s) = dom (DB_DOCS s) ∧
  ∀ k : string,
    k ∈ dom (DB_CASES s) ↔
    ∃ i : nat, (1 ≤ i ≤ size (DB_CASES s))%nat ∧
               k = "caso_" +:+ Py.str_of_len i.
Proof. intros H. exact (reachable_ok API_KEY s H). Qed.

Lemma reachable_store_shape_witness :
  let s := (handle "changeme"
              (PostCases {[ "title" := JStr "X" ]} (Some "Bearer changeme"))
              Store_init).2 in
  dom (DB_CASES s) = dom (DB_DOCS s) ∧
  ∀ k : string,
    k ∈ dom (DB_CASES s) ↔
    ∃ i : nat, (1 ≤ i ≤ size (DB_CASES s))%nat ∧
               k = "caso_" +:+ Py.str_of_len i.
Proof.
  intros s. apply (reachable_store_shape "changeme" s).
  apply (reachable_step "changeme" Store_init
           (PostCases {[ "title" := JStr "X" ]} (Some "Bearer changeme"))).
  apply reachable_init.
Defined.

(** X7. A case of the service is never changed and never removed: whatever
    the next request is, the record under an identifier stays the one that
    was stored. *)
Theorem cases_immutable (API_KEY : string) (s : Store) (r : request)
    (k : string) (c : Case) :
  reachable API_KEY s →
  DB_CASES s !! k = Some c →
  DB_CASES (handle API_KEY r s).2 !! k = Some c.
Proof.
  intros Hreach Hk. apply reachable_ok in Hreach.
  destruct (handle API_KEY r s) as [o s1] eqn:Hh. cbn [snd].
  destruct (handle_step _ _ _ _ _ Hh)
    as [-> | [(p & a & c' & _ & Hc) | (k' & p & a & b & _ & Hd)]].
  - done.
  - apply (create_case_fresh _ _ _ _ _ _ Hreach) in Hc as (Hfree & _ & _ & ->).
    simpl. rewrite lookup_insert_ne; [done|]. intros <-. congruence.
  - apply add_documents_ok in Hd as (? & ? & ? & ? & _ & _ & _ & _ & _ & _ & -> & _).
    done.
Qed.

Lemma cases_immutable_witness :
  let auth := Some "Bearer changeme" in
  let s := (handle "changeme" (PostCases {[ "title" := JStr "X" ]} auth)
              Store_init).2 in
  let c := {| Case_id := "caso_1"; Case_title := "X";
              Case_matter := Some "Direito do Trabalho"; Case_notes := None |} in
  DB_CASES (handle "changeme" (PostCases {[ "title" := JStr "Y" ]} auth) s).2
    !! "caso_1" = Some c.
Proof.
  intros auth s c. apply cases_immutable.
  - apply (reachable_step "changeme" Store_init
             (PostCases {[ "title" := JStr "X" ]} auth)).
    apply reachable_init.
  - reflexivity.
Defined.

(** X8. The documents of a case only grow, at the end: after any request
    the list is the old one followed by what was attached, and something
    was attached only if the request is an [add_documents] for that very
    case. *)
Theorem documents_append_only (API_KEY : string) (s : Store) (r : request)
    (k : string) (old : list DocumentInput) :
  reachable API_KEY s →
  DB_DOCS s !! k = Some old →
  ∃ extra,
    DB_DOCS (handle API_KEY r s).2 !! k = Some (old ++ extra) ∧
    (extra ≠ [] → ∃ p a, r = PostDocuments k p a).
Proof.
  intros Hreach Hk. apply reachable_ok in Hreach.
  destruct (handle API_KEY r s) as [o s1] eqn:Hh. cbn [snd].
  destruct (handle_step _ _ _ _ _ Hh)
    as [-> | [(p & a & c' & _ & Hc) | (k' & p & a & b & -> & Hd)]].
  - exists []. by rewrite app_nil_r.
  - apply (create_case_fresh _ _ _ _ _ _ Hreach) in Hc as (_ & Hfree & _ & ->).
    exists []. rewrite app_nil_r. split; [|done].
    simpl. rewrite lookup_insert_ne; [done|]. intros <-. congruence.
  - apply add_documents_ok in Hd
      as (? & ? & docs & old' & _ & _ & _ & _ & _ & Hold & -> & _).
    destruct (decide (k' = k)) as [-> | Hne].
    + exists docs. simpl. rewrite lookup_insert_eq.
      split; [congruence|]. intros _. by exists p, a.
    + exists []. rewrite app_nil_r. simpl.
      by rewrite lookup_insert_ne.
Qed.

Lemma documents_append_only_witness :
  let auth := Some "Bearer changeme" in
  let s := (handle "changeme" (PostCases {[ "title" := JStr "X" ]} auth)
              Store_init).2 in
  let r := PostDocuments "caso_1"
             (Some {[ "documents" :=
                JArr [JObj {[ "type" := JStr "ro"; "content" := JStr "c" ]}] ]})
             auth in
  ∃ extra,
    DB_DOCS (handle "changeme" r s).2 !! "caso_1" = Some ([] ++ extra) ∧
    (extra ≠ [] → ∃ p a, r = PostDocuments "caso_1" p a).
Proof.
  intros auth s r. apply documents_append_only.
  - apply (reachable_step "changeme" Store_init
             (PostCases {[ "title" := JStr "X" ]} auth)).
    apply reachable_init.
  - reflexivity.
Defined.

(** X9. Every document the service holds went through the validation: its
    type is one of the closed set and its encoding is null, [plain] or
    [base64]. *)
Theorem stored_documents_valid (API_KEY : string) (s : Store) (k : string)
    (l : list DocumentInput) (d : DocumentInput) :
  reachable API_KEY s →
  DB_DOCS s !! k = Some l →
  d ∈ l →
  Doc_type d ∈ type_alternatives ∧
  (Doc_encoding d = None ∨
   ∃ e, Doc_encoding d = Some e ∧ e ∈ encoding_alternatives).
Proof.
  intros Hreach. revert k l d.
  induction Hreach as [|s r Hreach IH]; intros k l d Hk Hd.
  { simpl in Hk. by rewrite lookup_empty in Hk. }
  apply reachable_ok in Hreach.
  destruct (handle API_KEY r s) as [o s1] eqn:Hh. cbn [snd] in *.
  destruct (handle_step _ _ _ _ _ Hh)
    as [-> | [(p & a & c' & _ & Hc) | (k' & p & a & b & _ & Ha)]].
  - by apply (IH k l d).
  - apply (create_case_fresh _ _ _ _ _ _ Hreach) in Hc as (_ & _ & _ & ->).
    simpl in Hk. destruct (decide (Case_id c' = k)) as [Heq | Hne].
    + rewrite Heq, lookup_insert_eq in Hk. simplify_eq.
      by apply not_elem_of_nil in Hd.
    + rewrite lookup_insert_ne in Hk by done. by apply (IH k l d).
  - apply add_documents_ok in Ha
      as (? & ? & docs & old & _ & _ & _ & _ & Hdocs & Hold & -> & _).
    simpl in Hk. destruct (decide (k' = k)) as [-> | Hne].
    + rewrite lookup_insert_eq in Hk. simplify_eq.
      apply elem_of_app in Hd as [Hd | Hd].
      * by apply (IH k old d).
      * apply comprehension_valid in Hdocs.
        by apply (proj1 (Forall_forall _ _) Hdocs d).
    + rewrite lookup_insert_ne in Hk by done. by apply (IH k l d).
Qed.

Lemma stored_documents_valid_witness :
  let auth := Some "Bearer changeme" in
  let s0 := (handle "changeme" (PostCases {[ "title" := JStr "X" ]} auth)
               Store_init).2 in
  let s := (handle "changeme"
              (PostDocuments "caso_1"
                 (Some {[ "documents" :=
                    JArr [JObj {[ "type" := JStr "ro"; "content" := JStr "c";
                                  "encoding" := JStr "base64" ]}] ]}) auth)
              s0).2 in
  let d := {| Doc_type := "ro"; Doc_filename := None; Doc_content := "c";
              Doc_encoding := Some "base64" |} in
  Doc_type d ∈ type_alternatives ∧
  (Doc_encoding d = None ∨
   ∃ e, Doc_encoding d = Some e ∧ e ∈ encoding_alternatives).
Proof.
  intros auth s0 s d.
  apply (stored_documents_valid "changeme" s "caso_1" [d] d).
  - apply reachable_step.
    apply (reachable_step "changeme" Store_init
             (PostCases {[ "title" := JStr "X" ]} auth)).
    apply reachable_init.
  - reflexivity.
  - apply list_elem_of_here.
Defined.

(** X10. Every case the service holds has its key as identifier, the matter
    [Direito do Trabalho], and a title that is not empty. *)
Theorem stored_cases_valid (API_KEY : string) (s : Store) (k : string)
    (c : Case) :
  reachable API_KEY s →
  DB_CASES s !! k = Some c →
  Case_id c = k ∧
  Case_matter c = Some "Direito do Trabalho" ∧
  Case_title c ≠ "".
Proof.
  intros Hreach. revert k c.
  induction Hreach as [|s r Hreach IH]; intros k c Hk.
  { simpl in Hk. by rewrite lookup_empty in Hk. }
  apply reachable_ok in Hreach.
  destruct (handle API_KEY r s) as [o s1] eqn:Hh. cbn [snd] in *.
  destruct (handle_step _ _ _ _ _ Hh)
    as [-> | [(p & a & c' & _ & Hc) | (k' & p & a & b & _ & Ha)]].
  - by apply IH.
  - apply (create_case_fresh _ _ _ _ _ _ Hreach) in Hc as (_ & _ & Hv & ->).
    simpl in Hk. destruct (decide (Case_id c' = k)) as [Heq | Hne].
    + rewrite Heq, lookup_insert_eq in Hk. simplify_eq. exact Hv.
    + rewrite lookup_insert_ne in Hk by done. by apply IH.
  - apply add_documents_ok in Ha
      as (? & ? & ? & ? & _ & _ & _ & _ & _ & _ & -> & _).
    by apply IH.
Qed.

Lemma stored_cases_valid_witness :
  let auth := Some "Bearer changeme" in
  let s := (handle "changeme"
              (PostCases {[ "title" := JStr "X"; "matter" := JStr "Cível" ]} auth)
              Store_init).2 in
  let c := {| Case_id := "caso_1"; Case_title := "X";
              Case_matter := Some "Direito do Trabalho"; Case_notes := None |} in
  Case_id c = "caso_1" ∧
  Case_matter c = Some "Direito do Trabalho" ∧
  Case_title c ≠ "".
Proof.
  intros auth s c. apply (stored_cases_valid "changeme" s "caso_1" c).
  - apply (reachable_step "changeme" Store_init
             (PostCases {[ "title" := JStr "X"; "matter" := JStr "Cível" ]} auth)).
    apply reachable_init.
  - reflexivity.
Defined.

(** X11. The routes that read never write: [get_case], [analyze_case],
    [strategy_case] and [search_normas] return the store they were given,
    whatever the arguments and whether they succeed or raise. *)
Theorem read_only_routes (API_KEY : string) (s : Store) (caseId : string)
    (auth : option string) (areq : AnalysisRequest) (sreq : StrategyRequest)
    (nreq : NormaPesquisaRequest) :
  (get_case API_KEY caseId auth s).2 = s ∧
  (analyze_case API_KEY caseId areq auth s).2 = s ∧
  (strategy_case API_KEY caseId sreq auth s).2 = s ∧
  (search_normas API_KEY nreq auth s).2 = s.
Proof.
  unfold get_case, analyze_case, strategy_case, search_normas, bind, lift,
    ret, raise, get_store.
  repeat split; repeat (case_match; simplify_eq/=); done.
Qed.

(** X12. No route writes before it raises: when a request ends in an
    exception, of any kind, the store is the one before the request. *)
Theorem raise_leaves_store (API_KEY : string) (r : request) (s s' : Store)
    (e : exn) :
  handle API_KEY r s = (Raise e, s') → s' = s.
Proof. apply handle_raise_unchanged. Qed.

Lemma raise_leaves_store_witness :
  let auth := Some "Bearer changeme" in
  let s := (handle "changeme" (PostCases {[ "title" := JStr "X" ]} auth)
              Store_init).2 in
  (handle "changeme" (PostCases {[ "title" := JBool true ]} auth) s).2 = s.
Proof.
  intros auth s.
  apply (raise_leaves_store "changeme"
           (PostCases {[ "title" := JBool true ]} auth) s _ ValidationError).
  reflexivity.
Defined.

(** ** The canned answers *)

(** X13. [strategy_case] does not look at its request nor at the documents:
    with valid credentials and a case that exists, two calls for the same
    identifier return the same response, which repeats the identifier, and
    leave their stores alone. *)
Theorem strategy_case_constant (API_KEY : string) (s1 s2 : Store)
    (caseId : string) (req1 req2 : StrategyRequest)
    (auth1 auth2 : option string) :
  check_auth API_KEY auth1 = Ok tt →
  check_auth API_KEY auth2 = Ok tt →
  caseId ∈ dom (DB_CASES s1) →
  caseId ∈ dom (DB_CASES s2) →
  ∃ r,
    strategy_case API_KEY caseId req1 auth1 s1 = (Ok r, s1) ∧
    strategy_case API_KEY caseId req2 auth2 s2 = (Ok r, s2) ∧
    SRes_caseId r = caseId ∧
    SRes_roadmap r = strategy_roadmap ∧
    length (SRes_risks r) = 1%nat.
Proof.
  intros Ha1 Ha2 Hin1 Hin2.
  unfold strategy_case, bind, lift, get_store, raise, ret.
  rewrite Ha1, Ha2, !bool_decide_eq_true_2 by done. simpl.
  eexists. repeat split.
Qed.

Lemma strategy_case_constant_witness :
  let auth := Some "Bearer changeme" in
  let s1 := (handle "changeme" (PostCases {[ "title" := JStr "X" ]} auth)
               Store_init).2 in
  let s2 := (handle "changeme" (PostCases {[ "title" := JStr "Y" ]} auth) s1).2 in
  ∃ r,
    strategy_case "changeme" "caso_1"
      {| SReq_goal := None; SReq_deadline := None; SReq_constraints := None |}
      auth s1 = (Ok r, s1) ∧
    strategy_case "changeme" "caso_1"
      {| SReq_goal := Some "acordo"; SReq_deadline := Some "2025-01-01";
         SReq_constraints := None |}
      auth s2 = (Ok r, s2) ∧
    SRes_caseId r = "caso_1" ∧
    SRes_roadmap r = strategy_roadmap ∧
    length (SRes_risks r) = 1%nat.
Proof.
  intros auth s1 s2. apply strategy_case_constant.
  - reflexivity.
  - reflexivity.
  - vm_compute. reflexivity.
  - vm_compute. reflexivity.
Defined.

(** X14. With a valid credential [search_normas] always succeeds, whatever
    the limit: the items are a prefix of the two ranked citations, chosen
    by the limit alone and not by the query or the sources; a null limit
    returns both, and a negative limit [k] returns [max (2 + k) 0] of them,
    so that [-1] returns the first one. *)
Theorem search_normas_prefix (API_KEY : string) (s : Store)
    (req : NormaPesquisaRequest) (auth : option string) :
  check_auth API_KEY auth = Ok tt →
  ∃ items,
    search_normas API_KEY req auth s = (Ok {| Search_items := items |}, s) ∧
    items `prefix_of` search_matches ∧
    (NReq_limit req = None → items = search_matches) ∧
    (∀ k, NReq_limit req = Some k → k < 0 →
          Z.of_nat (length items) = Z.max (2 + k) 0).
Proof.
  intros Hauth. exists (Py.slice_to search_matches (NReq_limit req)).
  unfold search_normas, bind, lift, ret. rewrite Hauth.
  split; [done|]. split; [|split].
  - unfold Py.slice_to. destruct (NReq_limit req); [apply prefix_take|done].
  - by intros ->.
  - intros k -> Hk. unfold Py.slice_to.
    destruct (Z.ltb_spec k 0) as [_|]; [|lia].
    rewrite length_take. simpl length. lia.
Qed.

Lemma search_normas_prefix_witness :
  ∃ items,
    search_normas "changeme"
      {| NReq_query := "férias"; NReq_sources := Some ["CLT"];
         NReq_limit := Some (-1) |}
      (Some "Bearer changeme") Store_init
    = (Ok {| Search_items := items |}, Store_init) ∧
    items `prefix_of` search_matches ∧
    (Some (-1) = None → items = search_matches) ∧
    (∀ k, Some (-1) = Some k → k < 0 →
          Z.of_nat (length items) = Z.max (2 + k) 0).
Proof.
  apply (search_normas_prefix "changeme" Store_init
           {| NReq_query := "férias"; NReq_sources := Some ["CLT"];
              NReq_limit := Some (-1) |} (Some "Bearer changeme")).
  reflexivity.
Defined.

(** ** Edge cases of attaching *)

(** X15. For a case of the service and a valid credential, a payload with
    no [documents] entry, or with one that iterates to nothing (an empty
    list, an empty string, an empty object), is accepted: the call reports
    0 documents and the store is the one before. *)
Theorem add_documents_nothing (API_KEY : string) (s : Store) (caseId : string)
    (auth : option string) (p : gmap string json) :
  reachable API_KEY s →
  check_auth API_KEY auth = Ok tt →
  caseId ∈ dom (DB_CASES s) →
  p !! "documents" = None ∨ p !! "documents" = Some (JArr []) ∨
  p !! "documents" = Some (JStr "") ∨ p !! "documents" = Some (JObj ∅) →
  add_documents API_KEY caseId (Some p) auth s =
  (Ok {| message := "0 documento(s) anexado(s) ao " +:+ caseId |}, s).
Proof.
  intros Hreach Hauth Hin Hp.
  destruct (store_ok_docs s caseId (reachable_ok _ _ Hreach) Hin) as [old Hold].
  unfold add_documents, bind, lift, get_store, ret, raise, extend_docs,
    dict_get_default.
  rewrite Hauth, bool_decide_eq_true_2 by done. cbn [negb].
  assert (iterate (default (JArr []) (p !! "documents")) = Ok []) as ->.
  { destruct Hp as [-> | [-> | [-> | ->]]]; reflexivity. }
  cbn [comprehension]. rewrite Hold, app_nil_r, insert_id by done.
  by destruct s.
Qed.

Lemma add_documents_nothing_witness :
  let auth := Some "Bearer changeme" in
  let s := (handle "changeme" (PostCases {[ "title" := JStr "X" ]} auth)
              Store_init).2 in
  add_documents "changeme" "caso_1" (Some {[ "files" := JArr [JInt 1] ]}) auth s =
  (Ok {| message := "0 documento(s) anexado(s) ao " +:+ "caso_1" |}, s).
Proof.
  intros auth s. apply add_documents_nothing.
  - apply (reachable_step "changeme" Store_init
             (PostCases {[ "title" := JStr "X" ]} auth)).
    apply reachable_init.
  - reflexivity.
  - vm_compute. reflexivity.
  - left. reflexivity.
Defined.

(** X16. For an existing case and a valid credential, a body that is not
    there raises [AttributeError]; a [documents] entry that is null, a
    boolean or a number cannot be iterated and raises [TypeError]; so does
    a list whose first item is not an object, whatever follows it.  Nothing
    is stored in any of these cases. *)
Theorem add_documents_malformed (API_KEY : string) (s : Store) (caseId : string)
    (auth : option string) :
  check_auth API_KEY auth = Ok tt →
  caseId ∈ dom (DB_CASES s) →
  add_documents API_KEY caseId None auth s = (Raise AttributeError, s) ∧
  (∀ p v, p !! "documents" = Some v →
          (v = JNull ∨ (∃ b, v = JBool b) ∨ (∃ z, v = JInt z) ∨
           (∃ f, v = JFloat f)) →
          add_documents API_KEY caseId (Some p) auth s = (Raise TypeError, s)) ∧
  (∀ p v ds, p !! "documents" = Some (JArr (v :: ds)) →
             (∀ kw, v ≠ JObj kw) →
             add_documents API_KEY caseId (Some p) auth s = (Raise TypeError, s)).
Proof.
  intros Hauth Hin.
  unfold add_documents, bind, lift, get_store, ret, raise, dict_get_default.
  rewrite Hauth, bool_decide_eq_true_2 by done. cbn [negb].
  split; [done|]. split.
  - intros p v -> [-> | [[b ->] | [[z ->] | [f ->]]]]; reflexivity.
  - intros p v ds -> Hv. cbn [from_option id iterate comprehension].
    destruct v as [| | | | | |kw]; try reflexivity.
    exfalso. by apply (Hv kw).
Qed.

Lemma add_documents_malformed_witness :
  let auth := Some "Bearer changeme" in
  let s := (handle "changeme" (PostCases {[ "title" := JStr "X" ]} auth)
              Store_init).2 in
  add_documents "changeme" "caso_1" None auth s = (Raise AttributeError, s) ∧
  add_documents "changeme" "caso_1" (Some {[ "documents" := JInt 3 ]}) auth s
    = (Raise TypeError, s) ∧
  add_documents "changeme" "caso_1"
    (Some {[ "documents" :=
       JArr [JStr "sentenca";
             JObj {[ "type" := JStr "ro"; "content" := JStr "c" ]}] ]}) auth s
    = (Raise TypeError, s).
Proof.
  intros auth s.
  assert (check_auth "changeme" auth = Ok tt) as Hauth by reflexivity.
  assert ("caso_1" ∈ dom (DB_CASES s)) as Hin by (vm_compute; reflexivity).
  destruct (add_documents_malformed "changeme" s "caso_1" auth Hauth Hin)
    as (H1 & H2 & H3).
  split; [exact H1|]. split.
  - apply (H2 _ (JInt 3)); [reflexivity|]. right; right; left. by exists 3.
  - apply (H3 _ (JStr "sentenca")
             [JObj {[ "type" := JStr "ro"; "content" := JStr "c" ]}]);
      [reflexivity | discriminate].
Defined.

(** A comprehension over two lists in a row. *)
Lemma comprehension_app {A B} (f : A → result B) (l1 l2 : list A)
    (r1 r2 : list B) :
  comprehension f l1 = Ok r1 →
  comprehension f l2 = Ok r2 →
  comprehension f (l1 ++ l2) = Ok (r1 ++ r2).
Proof.
  revert r1. induction l1 as [|x l1 IH]; intros r1; simpl.
  - by intros [= <-].
  - unfold rbind. destruct (f x) as [y|]; [|discriminate].
    destruct (comprehension f l1) as [ys|] eqn:Hys; [|discriminate].
    intros [= <-] H2. by rewrite (IH ys eq_refl H2).
Qed.

(** X17. For a case of the service and a valid credential, attaching a
    batch of accepted documents and then a second one leaves the store that
    attaching the two batches in one call, the first before the second,
    leaves. *)
Theorem add_documents_compose (API_KEY : string) (s : Store) (caseId : string)
    (auth : option string) (p1 p2 p12 : gmap string json)
    (kws1 kws2 : list (gmap string json)) :
  reachable API_KEY s →
  check_auth API_KEY auth = Ok tt →
  caseId ∈ dom (DB_CASES s) →
  p1 !! "documents" = Some (JArr (JObj <$> kws1)) →
  p2 !! "documents" = Some (JArr (JObj <$> kws2)) →
  p12 !! "documents" = Some (JArr (JObj <$> kws1 ++ kws2)) →
  forallb document_ok kws1 = true →
  forallb document_ok kws2 = true →
  (add_documents API_KEY caseId (Some p2) auth
     (add_documents API_KEY caseId (Some p1) auth s).2).2 =
  (add_documents API_KEY caseId (Some p12) auth s).2.
Proof.
  intros Hreach Hauth Hin Hp1 Hp2 Hp12 Hok1 Hok2.
  destruct (store_ok_docs s caseId (reachable_ok _ _ Hreach) Hin) as [old Hold].
  pose proof (comprehension_documents kws1) as H1. rewrite Hok1 in H1.
  pose proof (comprehension_documents kws2) as H2. rewrite Hok2 in H2.
  destruct H1 as (docs1 & H1 & _), H2 as (docs2 & H2 & _).
  pose proof (comprehension_app _ _ _ _ _ H1 H2) as H12.
  rewrite <- fmap_app in H12.
  rewrite (add_documents_batch _ _ _ _ _ _ _ Hauth Hin Hold Hp1), H1.
  rewrite (add_documents_batch _ _ _ _ _ _ _ Hauth Hin Hold Hp12), H12.
  cbn [snd].
  rewrite (add_documents_batch _ _ _ _ _ kws2 (old ++ docs1) Hauth);
    [|done|simpl; apply lookup_insert_eq|done].
  rewrite H2. cbn [snd DB_CASES DB_DOCS].
  by rewrite insert_insert_eq, app_assoc.
Qed.

Lemma add_documents_compose_witness :
  let auth := Some "Bearer changeme" in
  let s := (handle "changeme" (PostCases {[ "title" := JStr "X" ]} auth)
              Store_init).2 in
  let doc (t : string) : gmap string json :=
    {[ "type" := JStr t; "content" := JStr "..." ]} in
  let body (kws : list (gmap string json)) : gmap string json :=
    {[ "documents" := JArr (JObj <$> kws) ]} in
  (add_documents "changeme" "caso_1" (Some (body [doc "ro"])) auth
     (add_documents "changeme" "caso_1"
        (Some (body [doc "sentenca"; doc "ed"])) auth s).2).2 =
  (add_documents "changeme" "caso_1"
     (Some (body ([doc "sentenca"; doc "ed"] ++ [doc "ro"]))) auth s).2.
Proof.
  intros auth s doc body.
  apply (add_documents_compose "changeme" s "caso_1" auth
           (body [doc "sentenca"; doc "ed"]) (body [doc "ro"])
           (body ([doc "sentenca"; doc "ed"] ++ [doc "ro"]))
           [doc "sentenca"; doc "ed"] [doc "ro"]).
  - apply (reachable_step "changeme" Store_init
             (PostCases {[ "title" := JStr "X" ]} auth)).
    apply reachable_init.
  - reflexivity.
  - vm_compute. reflexivity.
  - reflexivity.
  - reflexivity.
  - reflexivity.
  - reflexivity.
  - reflexivity.
Defined.

(** ** Null format, and what a stored document holds *)

(** X18. For every existing case and valid credential, a request whose
    [format] is null makes [analyze_case] raise [ValidationError], with the
    store as before: the response model wants a string there. *)
Theorem analyze_case_null_format_raises (API_KEY : string) (s : Store)
    (caseId : string) (req : AnalysisRequest) (auth : option string) :
  check_auth API_KEY auth = Ok tt →
  caseId ∈ dom (DB_CASES s) →
  AReq_format req = None →
  analyze_case API_KEY caseId req auth s = (Raise ValidationError, s).
Proof.
  intros Hauth Hin Hf.
  unfold analyze_case, bind, lift, get_store, raise.
  by rewrite Hauth, Hf, bool_decide_eq_true_2 by done.
Qed.

Lemma analyze_case_null_format_raises_witness :
  let auth := Some "Bearer changeme" in
  let s := (handle "changeme" (PostCases {[ "title" := JStr "X" ]} auth)
              Store_init).2 in
  analyze_case "changeme" "caso_1"
    {| AReq_format := None; AReq_includeCitations := None;
       AReq_sections := None |} auth s = (Raise ValidationError, s).
Proof.
  intros auth s. apply analyze_case_null_format_raises.
  - reflexivity.
  - vm_compute. reflexivity.
  - reflexivity.
Defined.

(** X19. A document that passes the validation is kept as it was sent: the
    type and the content are the strings of the payload, the content is
    not decoded whatever the encoding says, the file name is the one given
    or null, and the encoding is the one given, [plain] when the entry is
    absent and null when it is null. *)
Theorem DocumentInput_as_sent (kw : gmap string json) (d : DocumentInput) :
  DocumentInput_kwargs kw = Ok d →
  kw !! "type" = Some (JStr (Doc_type d)) ∧
  kw !! "content" = Some (JStr (Doc_content d)) ∧
  match kw !! "filename" with
  | None | Some JNull => Doc_filename d = None
  | Some v => ∃ f, v = JStr f ∧ Doc_filename d = Some f
  end ∧
  match kw !! "encoding" with
  | None => Doc_encoding d = Some "plain"
  | Some JNull => Doc_encoding d = None
  | Some v => ∃ e, v = JStr e ∧ Doc_encoding d = Some e
  end.
Proof.
  unfold DocumentInput_kwargs, str_pattern_field, str_field, opt_str_field,
    opt_str_pattern_field, rbind.
  destruct (kw !! "type") as [[| | | |t| |]|]; try discriminate.
  destruct (matches type_alternatives t); [|discriminate].
  destruct (kw !! "filename") as [[]|]; try discriminate;
    destruct (kw !! "content") as [[]|]; try discriminate;
    destruct (kw !! "encoding") as [[| | | |e| |]|]; try discriminate;
    try (destruct (matches encoding_alternatives e); [|discriminate]);
    intros [= <-]; simpl; eauto 10.
Qed.

Lemma DocumentInput_as_sent_witness :
  let kw : gmap string json :=
    {[ "type" := JStr "acordao"; "content" := JStr "QUJD";
       "filename" := JStr "acordao.pdf"; "encoding" := JStr "base64" ]} in
  let d := {| Doc_type := "acordao"; Doc_filename := Some "acordao.pdf";
              Doc_content := "QUJD"; Doc_encoding := Some "base64" |} in
  kw !! "type" = Some (JStr (Doc_type d)) ∧
  kw !! "content" = Some (JStr (Doc_content d)) ∧
  match kw !! "filename" with
  | None | Some JNull => Doc_filename d = None
  | Some v => ∃ f, v = JStr f ∧ Doc_filename d = Some f
  end ∧
  match kw !! "encoding" with
  | None => Doc_encoding d = Some "plain"
  | Some JNull => Doc_encoding d = None
  | Some v => ∃ e, v = JStr e ∧ Doc_encoding d = Some e
  end.
Proof.
  intros kw d. apply (DocumentInput_as_sent kw d). reflexivity.
Defined.
